(** * play_silence: a shallow embedding of [play_silence.c]

    The C program opens an ALSA playback device, configures it, and then
    writes a zeroed buffer to it in a loop until a termination signal
    clears the [running] flag or a write fault ends the loop; it then
    drains and closes the device.

    The embedding keeps the two globals of the program ([running] and
    [pcm_handle]) as an explicit state, and records every interaction
    with the outside (library calls, console output, accesses to the
    volatile flag) in a trace.  What the outside answers (return codes of
    the ALSA calls, success of [calloc], delivery of signals) is given by
    a [world]. *)

From Stdlib Require Import ZArith List String Bool Lia.
Import ListNotations.
Local Open Scope string_scope.
Local Open Scope list_scope.
Local Open Scope Z_scope.

(** ** Constants of the C environment *)

Definition EPIPE : Z := 32.
Definition sizeof_short : Z := 2.

Inductive signal := SIGINT | SIGTERM.

Definition signo (s : signal) : Z :=
  match s with SIGINT => 2 | SIGTERM => 15 end.

(** Arguments of the three hardware-parameter setters. *)
Definition SND_PCM_ACCESS_RW_INTERLEAVED : Z := 3.
Definition SND_PCM_FORMAT_S16_LE : Z := 2.

(** ** Observable events *)

(** An open PCM device ([snd_pcm_t *] that is not NULL). *)
Definition snd_pcm_t := positive.

Inductive stream := stdout | stderr.

(** Arguments of a [printf]; [arg_err e] stands for [snd_strerror(e)]. *)
Inductive arg :=
| arg_s (s : string)
| arg_d (n : Z)
| arg_err (e : Z).

(** The configuration calls of [init_alsa], in the order of the source. *)
Inductive hw_call :=
| hw_params_any
| hw_set_access
| hw_set_format
| hw_set_channels
| hw_set_rate_near
| hw_commit.

Inductive event :=
| ev_print (f : stream) (fmt : string) (args : list arg)
| ev_signal (sig : Z)                       (* signal(sig, signal_handler) *)
| ev_load_running (v : Z)                   (* read of the volatile flag *)
| ev_store_running (v : Z)                  (* write of the volatile flag *)
| ev_open (name : string) (err : Z)
| ev_hw (c : hw_call) (h : option snd_pcm_t) (a : Z) (err : Z)
| ev_calloc (nmemb size : Z) (ok : bool)
| ev_writei (h : option snd_pcm_t) (buf : list Z) (frames : Z) (ret : Z)
| ev_prepare (h : option snd_pcm_t) (ret : Z)
| ev_usleep (us : Z)
| ev_free
| ev_drain (h : snd_pcm_t)
| ev_close (h : snd_pcm_t).

(** ** The outside world *)

(** What happens around one evaluation of the loop condition and the
    body that follows it. *)
Record iteration := {
  sig_before : list signal;  (* delivered before [running] is read *)
  sig_during : list signal;  (* delivered after the read, before the write is over;
                                their handlers are recorded ahead of the write *)
  writei_ret : Z;            (* result of snd_pcm_writei *)
  prepare_ret : Z            (* result of snd_pcm_prepare, if it is called *)
}.

Record world := {
  open_ret : string -> Z;    (* result of snd_pcm_open, by device name *)
  open_handle : snd_pcm_t;   (* the handle it stores on success *)
  hw_ret : hw_call -> Z;     (* results of the configuration calls *)
  rate_near : Z;             (* the rate snd_pcm_hw_params_set_rate_near grants *)
  sig_early : list signal;   (* delivered between setup_signals and init_alsa *)
  calloc_ok : bool;
  iterations : list iteration
}.

(** ** Program state and the monad threading it *)

(** The two file-scope variables. *)
Record globals := {
  running : Z;                      (* static volatile int running = 1 *)
  pcm_handle : option snd_pcm_t     (* static snd_pcm_t *pcm_handle = NULL *)
}.

Definition initial_globals : globals :=
  {| running := 1; pcm_handle := None |}.

(** A computation reads and updates the globals and emits events. *)
Definition M (A : Type) : Type := globals -> A * globals * list event.

Definition ret {A : Type} (a : A) : M A := fun g => (a, g, []).

Definition bind {A B : Type} (m : M A) (k : A -> M B) : M B :=
  fun g =>
    let '(a, g1, t1) := m g in
    let '(b, g2, t2) := k a g1 in
    (b, g2, t1 ++ t2).

Declare Scope prog_scope.
Delimit Scope prog_scope with prog.
Notation "x <- m ;; k" := (bind m (fun x => k))
  (at level 61, m at next level, right associativity) : prog_scope.
Notation "' p <- m ;; k" := (bind m (fun x => match x with p => k end))
  (at level 61, p pattern, m at next level, right associativity) : prog_scope.
Notation "m ;; k" := (bind m (fun _ => k))
  (at level 61, right associativity) : prog_scope.
Local Open Scope prog_scope.

Definition value {A : Type} (r : A * globals * list event) : A := fst (fst r).
Definition final {A : Type} (r : A * globals * list event) : globals := snd (fst r).
Definition trace {A : Type} (r : A * globals * list event) : list event := snd r.

Definition emit (e : event) : M unit := fun g => (tt, g, [e]).

Definition load_running : M Z :=
  fun g => (running g, g, [ev_load_running (running g)]).

Definition store_running (v : Z) : M unit :=
  fun g => (tt, {| running := v; pcm_handle := pcm_handle g |}, [ev_store_running v]).

Definition get_pcm_handle : M (option snd_pcm_t) :=
  fun g => (pcm_handle g, g, []).

Definition set_pcm_handle (h : option snd_pcm_t) : M unit :=
  fun g => (tt, {| running := running g; pcm_handle := h |}, []).

(** ** Library calls *)

Definition printf (fmt : string) (args : list arg) : M unit :=
  emit (ev_print stdout fmt args).

Definition fprintf (f : stream) (fmt : string) (args : list arg) : M unit :=
  emit (ev_print f fmt args).

Definition usleep (us : Z) : M unit := emit (ev_usleep us).

Definition free : M unit := emit ev_free.

(** [calloc(nmemb, size)]: a block of [nmemb] zero samples, or NULL. *)
Definition calloc (ok : bool) (nmemb size : Z) : M (option (list Z)) :=
  emit (ev_calloc nmemb size ok) ;;
  ret (if ok then Some (repeat 0 (Z.to_nat nmemb)) else None).

(** [snd_pcm_open(&pcm_handle, name, ...)]: the handle is stored only
    when the call succeeds. *)
Definition snd_pcm_open (w : world) (name : string) : M Z :=
  let err := open_ret w name in
  emit (ev_open name err) ;;
  (if err <? 0 then ret tt else set_pcm_handle (Some (open_handle w))) ;;
  ret err.

Definition snd_pcm_hw (w : world) (c : hw_call) (a : Z) : M Z :=
  h <- get_pcm_handle ;;
  emit (ev_hw c h a (hw_ret w c)) ;;
  ret (hw_ret w c).

Definition snd_pcm_writei (buf : list Z) (frames : Z) (r : Z) : M Z :=
  h <- get_pcm_handle ;;
  emit (ev_writei h buf frames r) ;;
  ret r.

Definition snd_pcm_prepare (r : Z) : M Z :=
  h <- get_pcm_handle ;;
  emit (ev_prepare h r) ;;
  ret r.

Definition snd_pcm_drain (h : snd_pcm_t) : M unit := emit (ev_drain h).
Definition snd_pcm_close (h : snd_pcm_t) : M unit := emit (ev_close h).

(** ** The program *)

Definition signal_handler (sig : Z) : M unit :=
  printf "\nReceived signal %d, shutting down gracefully...\n" [arg_d sig] ;;
  store_running 0.

(** Delivery of a list of signals: the handler runs once for each. *)
Fixpoint deliver (sigs : list signal) : M unit :=
  match sigs with
  | [] => ret tt
  | s :: rest => signal_handler (signo s) ;; deliver rest
  end.

Definition setup_signals : M unit :=
  emit (ev_signal (signo SIGINT)) ;;
  emit (ev_signal (signo SIGTERM)).

Definition init_alsa (w : world) (device_name : string) : M Z :=
  err <- snd_pcm_open w device_name ;;
  if err <? 0 then
    fprintf stderr "Error: Cannot open PCM device %s: %s\n"
            [arg_s device_name; arg_err err] ;;
    ret (-1)
  else
  err <- snd_pcm_hw w hw_params_any 0 ;;
  if err <? 0 then
    fprintf stderr "Error: Cannot initialize hw params: %s\n" [arg_err err] ;;
    ret (-1)
  else
  err <- snd_pcm_hw w hw_set_access SND_PCM_ACCESS_RW_INTERLEAVED ;;
  if err <? 0 then
    fprintf stderr "Error: Cannot set access type: %s\n" [arg_err err] ;;
    ret (-1)
  else
  err <- snd_pcm_hw w hw_set_format SND_PCM_FORMAT_S16_LE ;;
  if err <? 0 then
    fprintf stderr "Error: Cannot set format: %s\n" [arg_err err] ;;
    ret (-1)
  else
  err <- snd_pcm_hw w hw_set_channels 2 ;;
  if err <? 0 then
    fprintf stderr "Error: Cannot set channels: %s\n" [arg_err err] ;;
    ret (-1)
  else
  err <- snd_pcm_hw w hw_set_rate_near 44100 ;;
  if err <? 0 then
    fprintf stderr "Error: Cannot set sample rate: %s\n" [arg_err err] ;;
    ret (-1)
  else
  let sample_rate := rate_near w in
  err <- snd_pcm_hw w hw_commit 0 ;;
  if err <? 0 then
    fprintf stderr "Error: Cannot apply hw params: %s\n" [arg_err err] ;;
    ret (-1)
  else
  printf "ALSA initialized successfully:\n" [] ;;
  printf "  Device: %s\n" [arg_s device_name] ;;
  printf "  Sample rate: %u Hz\n" [arg_d sample_rate] ;;
  printf "  Format: 16-bit stereo\n" [] ;;
  ret 0.

Definition buffer_frames : Z := 1024.
Definition max_recovery_attempts : Z := 3.

(** How one pass through the loop body ends: [ctl_next] when control goes
    back to the loop condition (by [continue] or by reaching the end of
    the body), [ctl_break] on [break]. *)
Inductive ctl := ctl_next | ctl_break.

(** The body of [while (running)], with the value of [recovery_attempts]
    on entry; it returns the value on exit. *)
Definition loop_body (it : iteration) (silence_buffer : list Z)
    (recovery_attempts : Z) : M (ctl * Z) :=
  deliver (sig_during it) ;;
  frames_written <- snd_pcm_writei silence_buffer buffer_frames (writei_ret it) ;;
  if frames_written <? 0 then
    if frames_written =? - EPIPE then
      printf "Warning: PCM underrun occurred\n" [] ;;
      r <- snd_pcm_prepare (prepare_ret it) ;;
      if r <? 0 then
        fprintf stderr "Error: Cannot recover from underrun\n" [] ;;
        let recovery_attempts := recovery_attempts + 1 in
        if recovery_attempts >=? max_recovery_attempts then
          fprintf stderr "Error: Too many recovery attempts, exiting\n" [] ;;
          ret (ctl_break, recovery_attempts)
        else
          usleep 100000 ;;
          ret (ctl_next, recovery_attempts)
      else
        let recovery_attempts := 0 in
        usleep 1000 ;;
        ret (ctl_next, recovery_attempts)
    else
      fprintf stderr "Error: PCM write failed: %s\n" [arg_err frames_written] ;;
      ret (ctl_break, recovery_attempts)
  else
    (if negb (frames_written =? buffer_frames) then
       printf "Warning: Partial write (%ld/%d frames)\n"
              [arg_d frames_written; arg_d buffer_frames]
     else ret tt) ;;
    usleep 1000 ;;
    ret (ctl_next, recovery_attempts).

(** How far the loop got on the iterations the world describes:
    [Running] when they are used up and the loop has not ended. *)
Inductive loop_status := Running | Stopped | Aborted.

Fixpoint while_running (its : list iteration) (silence_buffer : list Z)
    (recovery_attempts : Z) : M (loop_status * Z) :=
  match its with
  | [] => ret (Running, recovery_attempts)
  | it :: rest =>
      deliver (sig_before it) ;;
      r <- load_running ;;
      if r =? 0 then ret (Stopped, recovery_attempts)
      else
        ' (c, recovery_attempts) <- loop_body it silence_buffer recovery_attempts ;;
        match c with
        | ctl_break => ret (Aborted, recovery_attempts)
        | ctl_next => while_running rest silence_buffer recovery_attempts
        end
  end.

(** A call that has returned, or one that is still in its loop when the
    iterations of the world are used up. *)
Inductive outcome (A : Type) :=
| Returned (a : A)
| Looping.
Arguments Returned {A} a.
Arguments Looping {A}.

Definition play_silence_loop (w : world) : M (outcome unit) :=
  let recovery_attempts := 0 in
  silence_buffer <- calloc (calloc_ok w) (buffer_frames * 2) sizeof_short ;;
  match silence_buffer with
  | None =>
      fprintf stderr "Error: Cannot allocate silence buffer\n" [] ;;
      ret (Returned tt)
  | Some silence_buffer =>
      printf "Playing silence... Press Ctrl+C to stop.\n" [] ;;
      ' (st, _) <- while_running (iterations w) silence_buffer recovery_attempts ;;
      match st with
      | Running => ret Looping
      | _ =>
          free ;;
          printf "Silence playback stopped.\n" [] ;;
          ret (Returned tt)
      end
  end.

Definition cleanup_alsa : M unit :=
  h <- get_pcm_handle ;;
  match h with
  | Some h =>
      snd_pcm_drain h ;;
      snd_pcm_close h ;;
      set_pcm_handle None ;;
      printf "ALSA resources cleaned up.\n" []
  | None => ret tt
  end.

Definition print_usage (program_name : string) : M unit :=
  printf "Usage: %s [device_name]\n" [arg_s program_name] ;;
  printf "\n" [] ;;
  printf "Play silence indefinitely using ALSA.\n" [] ;;
  printf "\n" [] ;;
  printf "Arguments:\n" [] ;;
  printf "  device_name    ALSA device name (default: 'default')\n" [] ;;
  printf "\n" [] ;;
  printf "Examples:\n" [] ;;
  printf "  %s                    # Use default ALSA device\n" [arg_s program_name] ;;
  printf "  %s hw:0,0             # Use hardware device 0, subdevice 0\n" [arg_s program_name] ;;
  printf "  %s plughw:1,0         # Use hardware device 1 with format conversion\n" [arg_s program_name] ;;
  printf "\n" [] ;;
  printf "Press Ctrl+C to stop the program.\n" [].

(** [strcmp(a, b) == 0] *)
Definition strcmp_eq0 (a b : string) : bool := String.eqb a b.

Definition main (w : world) (argv : list string) : M (outcome Z) :=
  let argc := Z.of_nat (List.length argv) in
  let arg_at (i : nat) := List.nth i argv "" in
  if argc >? 2 then
    print_usage (arg_at 0%nat) ;;
    ret (Returned 1)
  else if (argc =? 2) && (strcmp_eq0 (arg_at 1%nat) "-h" || strcmp_eq0 (arg_at 1%nat) "--help") then
    print_usage (arg_at 0%nat) ;;
    ret (Returned 0)
  else
    let device_name := if argc =? 2 then arg_at 1%nat else "default" in
    printf "play_silence - ALSA silence player v1.0\n" [] ;;
    printf "Purpose: Keep audio subsystem active to prevent vokoscreenNG freezing\n" [] ;;
    printf "=========================================================================\n\n" [] ;;
    setup_signals ;;
    deliver (sig_early w) ;;
    err <- init_alsa w device_name ;;
    if err <? 0 then
      cleanup_alsa ;;
      ret (Returned 1)
    else
      r <- play_silence_loop w ;;
      match r with
      | Looping => ret Looping
      | Returned _ =>
          cleanup_alsa ;;
          printf "Program terminated successfully.\n" [] ;;
          ret (Returned 0)
      end.

(** ** Predicates on traces *)

Definition is_write (e : event) : bool :=
  match e with ev_writei _ _ _ _ => true | _ => false end.

Definition is_load (e : event) : bool :=
  match e with ev_load_running _ => true | _ => false end.

Definition is_drain (e : event) : bool :=
  match e with ev_drain _ => true | _ => false end.

Definition is_close (e : event) : bool :=
  match e with ev_close _ => true | _ => false end.

Definition is_calloc (e : event) : bool :=
  match e with ev_calloc _ _ _ => true | _ => false end.

Definition is_free (e : event) : bool :=
  match e with ev_free => true | _ => false end.

Definition is_usleep (e : event) : bool :=
  match e with ev_usleep _ => true | _ => false end.

Definition is_print (e : event) : bool :=
  match e with ev_print _ _ _ => true | _ => false end.

(** The handle became non-null: a [snd_pcm_open] that succeeded. *)
Definition is_open_ok (e : event) : bool :=
  match e with ev_open _ err => 0 <=? err | _ => false end.

(** The number of events of a kind in a trace, and the absence of any. *)
Definition count_ev (p : event -> bool) (tr : list event) : nat :=
  List.length (filter p tr).

Definition none_ev (p : event -> bool) (tr : list event) : bool :=
  forallb (fun e => negb (p e)) tr.

(** The device handle became non-null during the run. *)
Definition handle_opened (tr : list event) : bool := existsb is_open_ok tr.

(** What a signal handler emits: its message and the store to the flag. *)
Definition is_handler_event (e : event) : bool :=
  match e with
  | ev_print stdout _ _ | ev_store_running _ => true
  | _ => false
  end.

(** What [init_alsa] emits: the open, configuration calls and output. *)
Definition is_init_event (e : event) : bool :=
  match e with
  | ev_open _ _ | ev_hw _ _ _ _ | ev_print _ _ _ => true
  | _ => false
  end.

(** Events that neither touch the flag nor write to the device. *)
Definition flag_neutral (e : event) : bool :=
  match e with
  | ev_store_running _ | ev_load_running _ | ev_writei _ _ _ _ => false
  | _ => true
  end.

(** Events that neither allocate, free nor use the buffer. *)
Definition buffer_neutral (e : event) : bool :=
  negb (is_calloc e || is_write e || is_free e).

(** ** The buffer and the events of the loop *)

(** The buffer [calloc(buffer_frames * 2, sizeof(short))] returns. *)
Definition zero_buffer : list Z := repeat 0 (Z.to_nat (buffer_frames * 2)).

(** Events that may occur while the loop runs on handle [h] with the
    buffer [buf]: output, accesses to the flag, writes of [buffer_frames]
    frames of [buf], re-primes and pauses. *)
Definition loop_event (h : option snd_pcm_t) (buf : list Z) (e : event) : Prop :=
  match e with
  | ev_print _ _ _ | ev_load_running _ | ev_usleep _ => True
  | ev_store_running v => v = 0
  | ev_writei h' buf' n _ => h' = h /\ buf' = buf /\ n = buffer_frames
  | ev_prepare h' _ => h' = h
  | _ => False
  end.

(** A write of [buffer_frames] frames of the all-zero buffer. *)
Definition write_of_silence (e : event) : Prop :=
  match e with
  | ev_writei _ buf n _ => buf = zero_buffer /\ n = buffer_frames
  | _ => True
  end.

(** ** The flag discipline *)

(** The discipline of the flag, as an automaton over the trace.  Its
    state is the current value of the flag and whether a write is
    licensed.  A store must clear the flag; a load must return the
    current value and licenses one write when that value is non-zero; a
    write uses up the licence. *)
Definition flag_step (s : Z * bool) (e : event) : option (Z * bool) :=
  let (flag, armed) := s in
  match e with
  | ev_store_running v => if v =? 0 then Some (v, armed) else None
  | ev_load_running v => if v =? flag then Some (flag, negb (v =? 0)) else None
  | ev_writei _ _ _ _ => if armed then Some (flag, false) else None
  | _ => Some s
  end.

Fixpoint flag_run (s : Z * bool) (tr : list event) : option (Z * bool) :=
  match tr with
  | [] => Some s
  | e :: tr' =>
      match flag_step s e with
      | Some s' => flag_run s' tr'
      | None => None
      end
  end.

(** ** The buffer discipline *)

Inductive buffer_state := Unallocated | Live | Gone.

(** The discipline of the buffer, as an automaton over the trace: one
    [calloc], and only before anything else happens to the buffer;
    writes only between a successful [calloc] and the [free], each
    passing samples that are all zero. *)
Definition buffer_step (s : buffer_state) (e : event) : option buffer_state :=
  match e with
  | ev_calloc _ _ ok =>
      match s with
      | Unallocated => Some (if ok then Live else Gone)
      | _ => None
      end
  | ev_writei _ buf _ _ =>
      match s with
      | Live => if forallb (Z.eqb 0) buf then Some Live else None
      | _ => None
      end
  | ev_free =>
      match s with
      | Live => Some Gone
      | _ => None
      end
  | _ => Some s
  end.

Fixpoint buffer_run (s : buffer_state) (tr : list event) : option buffer_state :=
  match tr with
  | [] => Some s
  | e :: tr' =>
      match buffer_step s e with
      | Some s' => buffer_run s' tr'
      | None => None
      end
  end.

(** ** The parts of a run of [main] *)

(** The device [main] settles on, or [None] when it only prints the
    usage text (too many arguments, or a help flag). *)
Definition chosen_device (argv : list string) : option string :=
  let argc := Z.of_nat (List.length argv) in
  if argc >? 2 then None
  else if (argc =? 2)
          && (strcmp_eq0 (List.nth 1 argv "") "-h"
              || strcmp_eq0 (List.nth 1 argv "") "--help") then None
  else Some (if argc =? 2 then List.nth 1 argv "" else "default").

(** What [main] emits before signals can be handled. *)
Definition banner : list event :=
  [ev_print stdout "play_silence - ALSA silence player v1.0\n" [];
   ev_print stdout "Purpose: Keep audio subsystem active to prevent vokoscreenNG freezing\n" [];
   ev_print stdout "=========================================================================\n\n" [];
   ev_signal (signo SIGINT);
   ev_signal (signo SIGTERM)].

(** Its last line of output. *)
Definition goodbye : list event :=
  [ev_print stdout "Program terminated successfully.\n" []].

(** What [init_alsa] emits when the open fails. *)
Definition open_failure (dev : string) (err : Z) : list event :=
  [ev_open dev err;
   ev_print stderr "Error: Cannot open PCM device %s: %s\n" [arg_s dev; arg_err err]].

(** What [play_silence_loop] emits before the loop, when the buffer is
    allocated and when it is not, and after the loop. *)
Definition loop_entry : list event :=
  [ev_calloc (buffer_frames * 2) sizeof_short true;
   ev_print stdout "Playing silence... Press Ctrl+C to stop.\n" []].

Definition loop_exit : list event :=
  [ev_free; ev_print stdout "Silence playback stopped.\n" []].

Definition alloc_failure : list event :=
  [ev_calloc (buffer_frames * 2) sizeof_short false;
   ev_print stderr "Error: Cannot allocate silence buffer\n" []].

(** What [cleanup_alsa] emits for an open handle. *)
Definition release (h : snd_pcm_t) : list event :=
  [ev_drain h; ev_close h; ev_print stdout "ALSA resources cleaned up.\n" []].

(** The globals once [cleanup_alsa] has cleared the handle. *)
Definition closed (g : globals) : globals :=
  {| running := running g; pcm_handle := None |}.

(** The state and events after the early signals, after [init_alsa],
    and the run of the loop proper. *)
Definition after_signals (w : world) := deliver (sig_early w) initial_globals.

Definition after_init (w : world) (dev : string) :=
  init_alsa w dev (final (after_signals w)).

Definition the_loop (w : world) (dev : string) :=
  while_running (iterations w) zero_buffer 0 (final (after_init w dev)).

(** The six ways a run of [main] can go, with its result. *)
Inductive main_path (w : world) (argv : list string) :
    outcome Z * globals * list event -> Prop :=
| path_usage (r : outcome Z * globals * list event) :
    chosen_device argv = None ->
    value r = Returned 1 \/ value r = Returned 0 ->
    final r = initial_globals ->
    forallb is_print (trace r) = true ->
    main_path w argv r
| path_open_failed (dev : string) :
    chosen_device argv = Some dev ->
    open_ret w dev < 0 ->
    main_path w argv
      (Returned 1, final (after_signals w),
       banner ++ trace (after_signals w) ++ open_failure dev (open_ret w dev))
| path_config_failed (dev : string) :
    chosen_device argv = Some dev ->
    0 <= open_ret w dev ->
    value (after_init w dev) = -1 ->
    main_path w argv
      (Returned 1, closed (final (after_init w dev)),
       banner ++ trace (after_signals w) ++ trace (after_init w dev)
       ++ release (open_handle w))
| path_no_buffer (dev : string) :
    chosen_device argv = Some dev ->
    0 <= open_ret w dev ->
    value (after_init w dev) = 0 ->
    calloc_ok w = false ->
    main_path w argv
      (Returned 0, closed (final (after_init w dev)),
       banner ++ trace (after_signals w) ++ trace (after_init w dev)
       ++ alloc_failure ++ release (open_handle w) ++ goodbye)
| path_looping (dev : string) :
    chosen_device argv = Some dev ->
    0 <= open_ret w dev ->
    value (after_init w dev) = 0 ->
    calloc_ok w = true ->
    fst (value (the_loop w dev)) = Running ->
    main_path w argv
      (Looping, final (the_loop w dev),
       banner ++ trace (after_signals w) ++ trace (after_init w dev)
       ++ loop_entry ++ trace (the_loop w dev))
| path_loop_ended (dev : string) :
    chosen_device argv = Some dev ->
    0 <= open_ret w dev ->
    value (after_init w dev) = 0 ->
    calloc_ok w = true ->
    fst (value (the_loop w dev)) <> Running ->
    main_path w argv
      (Returned 0, closed (final (the_loop w dev)),
       banner ++ trace (after_signals w) ++ trace (after_init w dev)
       ++ (loop_entry ++ trace (the_loop w dev) ++ loop_exit)
       ++ release (open_handle w) ++ goodbye).

(** ** Sample worlds *)

(** A world in which every call succeeds, with the given iterations. *)
Definition good_world (its : list iteration) : world :=
  {| open_ret := fun _ => 0;
     open_handle := 1%positive;
     hw_ret := fun _ => 0;
     rate_near := 44100;
     sig_early := [];
     calloc_ok := true;
     iterations := its |}.

(** An underrun whose re-prime fails. *)
Definition it_fail : iteration :=
  {| sig_before := []; sig_during := []; writei_ret := - EPIPE; prepare_ret := -1 |}.

(** An underrun whose re-prime succeeds. *)
Definition it_recover : iteration :=
  {| sig_before := []; sig_during := []; writei_ret := - EPIPE; prepare_ret := 0 |}.

(** A write of the full count. *)
Definition it_full : iteration :=
  {| sig_before := []; sig_during := []; writei_ret := buffer_frames; prepare_ret := 0 |}.

(** A write of 100 frames out of 1024. *)
Definition it_partial : iteration :=
  {| sig_before := []; sig_during := []; writei_ret := 100; prepare_ret := 0 |}.

(** A write error that is not an underrun (-ENODEV). *)
Definition it_fatal : iteration :=
  {| sig_before := []; sig_during := []; writei_ret := -19; prepare_ret := 0 |}.

(** SIGINT arrives before the loop condition is read. *)
Definition it_stop : iteration :=
  {| sig_before := [SIGINT]; sig_during := []; writei_ret := buffer_frames; prepare_ret := 0 |}.

(** A world whose device cannot be opened (-ENOENT). *)
Definition no_device_world : world :=
  {| open_ret := fun _ => -2;
     open_handle := 1%positive;
     hw_ret := fun _ => 0;
     rate_near := 44100;
     sig_early := [];
     calloc_ok := true;
     iterations := [it_full; it_stop] |}.

(** A world in which the silence buffer cannot be allocated. *)
Definition no_memory_world : world :=
  {| open_ret := fun _ => 0;
     open_handle := 1%positive;
     hw_ret := fun _ => 0;
     rate_near := 44100;
     sig_early := [];
     calloc_ok := false;
     iterations := [it_full; it_stop] |}.

(** The globals with a device open and the flag set. *)
Definition an_open_handle : globals :=
  {| running := 1; pcm_handle := Some 1%positive |}.

(** ** The stages of [init_alsa] *)

(** The configuration calls in the order [init_alsa] makes them. *)
Definition hw_stages : list hw_call :=
  [hw_params_any; hw_set_access; hw_set_format; hw_set_channels;
   hw_set_rate_near; hw_commit].

Definition stage_index (c : hw_call) : nat :=
  match c with
  | hw_params_any => 0
  | hw_set_access => 1
  | hw_set_format => 2
  | hw_set_channels => 3
  | hw_set_rate_near => 4
  | hw_commit => 5
  end.

(** The stages up to and including [c]. *)
Definition stages_upto (c : hw_call) : list hw_call :=
  firstn (S (stage_index c)) hw_stages.

(** The parameter each call passes besides the handle. *)
Definition hw_arg (c : hw_call) : Z :=
  match c with
  | hw_params_any => 0
  | hw_set_access => SND_PCM_ACCESS_RW_INTERLEAVED
  | hw_set_format => SND_PCM_FORMAT_S16_LE
  | hw_set_channels => 2
  | hw_set_rate_near => 44100
  | hw_commit => 0
  end.

(** The message [init_alsa] prints when a call fails. *)
Definition hw_error (c : hw_call) : string :=
  match c with
  | hw_params_any => "Error: Cannot initialize hw params: %s\n"
  | hw_set_access => "Error: Cannot set access type: %s\n"
  | hw_set_format => "Error: Cannot set format: %s\n"
  | hw_set_channels => "Error: Cannot set channels: %s\n"
  | hw_set_rate_near => "Error: Cannot set sample rate: %s\n"
  | hw_commit => "Error: Cannot apply hw params: %s\n"
  end.

Definition hw_events (w : world) (cs : list hw_call) : list event :=
  map (fun c => ev_hw c (Some (open_handle w)) (hw_arg c) (hw_ret w c)) cs.

(** The first configuration call the world makes fail, if any. *)
Definition first_failure (w : world) : option hw_call :=
  find (fun c => hw_ret w c <? 0) hw_stages.

(** What [init_alsa] prints once the device is configured. *)
Definition init_report (dev : string) (rate : Z) : list event :=
  [ev_print stdout "ALSA initialized successfully:\n" [];
   ev_print stdout "  Device: %s\n" [arg_s dev];
   ev_print stdout "  Sample rate: %u Hz\n" [arg_d rate];
   ev_print stdout "  Format: 16-bit stereo\n" []].

(** The globals once [snd_pcm_open] has stored the handle. *)
Definition opened (w : world) (g : globals) : globals :=
  {| running := running g; pcm_handle := Some (open_handle w) |}.

(** ** Further kinds of events and of iterations *)

Definition is_open (e : event) : bool :=
  match e with ev_open _ _ => true | _ => false end.

Definition is_prepare (e : event) : bool :=
  match e with ev_prepare _ _ => true | _ => false end.

Definition is_store (e : event) : bool :=
  match e with ev_store_running _ => true | _ => false end.

Definition is_signal_reg (e : event) : bool :=
  match e with ev_signal _ => true | _ => false end.

Definition is_calloc_ok (e : event) : bool :=
  match e with ev_calloc _ _ ok => ok | _ => false end.

Definition is_stdout_print (e : event) : bool :=
  match e with ev_print stdout _ _ => true | _ => false end.

(** An iteration that ends the loop by a fault: a write error that is
    not an underrun, or an underrun whose re-prime fails. *)
Definition faulty (it : iteration) : bool :=
  (writei_ret it <? 0)
  && (negb (writei_ret it =? - EPIPE) || (prepare_ret it <? 0)).

(** An iteration during which no signal arrives. *)
Definition quiet (it : iteration) : bool :=
  match sig_before it, sig_during it with
  | [], [] => true
  | _, _ => false
  end.

(** A quiet iteration whose write returns no error. *)
Definition quiet_write (it : iteration) : bool :=
  quiet it && (0 <=? writei_ret it).

(** A quiet iteration whose write underruns and whose re-prime fails. *)
Definition quiet_failure (it : iteration) : bool :=
  quiet it && (writei_ret it =? - EPIPE) && (prepare_ret it <? 0).

(** ** The handle discipline *)

Inductive handle_state := NotOpened | Opened | Drained | Done.

(** The discipline of the device handle [h], as an automaton over the
    trace: one [snd_pcm_open], before any other call; configuration
    calls, writes and re-primes only on [h] and only while it is open;
    the drain only on the open handle, the close only after the drain,
    and no call at all after the close or after a failed open. *)
Definition handle_step (h : snd_pcm_t) (s : handle_state) (e : event)
    : option handle_state :=
  match e with
  | ev_open _ err =>
      match s with
      | NotOpened => Some (if 0 <=? err then Opened else Done)
      | _ => None
      end
  | ev_hw _ h' _ _ | ev_prepare h' _ | ev_writei h' _ _ _ =>
      match s, h' with
      | Opened, Some h'' => if Pos.eqb h'' h then Some Opened else None
      | _, _ => None
      end
  | ev_drain h' =>
      match s with
      | Opened => if Pos.eqb h' h then Some Drained else None
      | _ => None
      end
  | ev_close h' =>
      match s with
      | Drained => if Pos.eqb h' h then Some Done else None
      | _ => None
      end
  | _ => Some s
  end.

Fixpoint handle_run (h : snd_pcm_t) (s : handle_state) (tr : list event)
    : option handle_state :=
  match tr with
  | [] => Some s
  | e :: tr' =>
      match handle_step h s e with
      | Some s' => handle_run h s' tr'
      | None => None
      end
  end.

(** Events that are not calls on the device. *)
Definition handle_neutral (e : event) : bool :=
  match e with
  | ev_open _ _ | ev_hw _ _ _ _ | ev_prepare _ _ | ev_writei _ _ _ _
  | ev_drain _ | ev_close _ => false
  | _ => true
  end.

(** An evaluation of the loop condition or a write: what the loop does
    once it has started. *)
Definition is_loop_step (e : event) : bool := is_load e || is_write e.

(** ** More sample worlds *)

(** A world whose device opens but rejects the sample format. *)
Definition no_format_world : world :=
  {| open_ret := fun _ => 0;
     open_handle := 1%positive;
     hw_ret := fun c => match c with hw_set_format => -22 | _ => 0 end;
     rate_near := 48000;
     sig_early := [];
     calloc_ok := true;
     iterations := [it_full; it_stop] |}.

(** A world in which SIGTERM arrives while the program starts up. *)
Definition early_signal_world : world :=
  {| open_ret := fun _ => 0;
     open_handle := 1%positive;
     hw_ret := fun _ => 0;
     rate_near := 44100;
     sig_early := [SIGTERM];
     calloc_ok := true;
     iterations := [it_full; it_full] |}.

(** * Properties *)

(** ** The monad *)

Lemma bind_run {A B : Type} (m : M A) (k : A -> M B) (g : globals) :
  bind m k g =
  (value (k (value (m g)) (final (m g))),
   final (k (value (m g)) (final (m g))),
   trace (m g) ++ trace (k (value (m g)) (final (m g)))).
Proof.
  unfold bind, value, final, trace.
  destruct (m g) as [[a g1] t1]; cbn.
  destruct (k a g1) as [[b g2] t2]; reflexivity.
Qed.

Lemma value_bind {A B : Type} (m : M A) (k : A -> M B) (g : globals) :
  value (bind m k g) = value (k (value (m g)) (final (m g))).
Proof. rewrite bind_run; reflexivity. Qed.

Lemma final_bind {A B : Type} (m : M A) (k : A -> M B) (g : globals) :
  final (bind m k g) = final (k (value (m g)) (final (m g))).
Proof. rewrite bind_run; reflexivity. Qed.

Lemma trace_bind {A B : Type} (m : M A) (k : A -> M B) (g : globals) :
  trace (bind m k g) = trace (m g) ++ trace (k (value (m g)) (final (m g))).
Proof. rewrite bind_run; reflexivity. Qed.

(** ** Signal delivery *)

Lemma deliver_handle (sigs : list signal) (g : globals) :
  pcm_handle (final (deliver sigs g)) = pcm_handle g.
Proof.
  revert g; induction sigs as [|s rest IH]; intros g; [reflexivity|].
  cbn [deliver]. rewrite final_bind, IH. reflexivity.
Qed.

Lemma deliver_running (sigs : list signal) (g : globals) :
  running (final (deliver sigs g)) = match sigs with [] => running g | _ => 0 end.
Proof.
  revert g; induction sigs as [|s rest IH]; intros g; [reflexivity|].
  cbn [deliver]. rewrite final_bind, IH. destruct rest; reflexivity.
Qed.

Lemma deliver_events (sigs : list signal) (g : globals) (h : option snd_pcm_t)
    (buf : list Z) :
  Forall (loop_event h buf) (trace (deliver sigs g)).
Proof.
  revert g; induction sigs as [|s rest IH]; intros g; [constructor|].
  cbn [deliver]. rewrite trace_bind. apply Forall_app; split; [|apply IH].
  repeat constructor.
Qed.

(** ** One pass through the loop body *)

(** Unfolds the body after signal delivery and splits on every test of
    the source, turning the boolean tests into facts on [Z]. *)
Ltac split_tests :=
  repeat match goal with
  | |- context [if (?a <? ?b) then _ else _] =>
      destruct (Z.ltb_spec a b); cbn
  | |- context [if (?a =? ?b) then _ else _] =>
      destruct (Z.eqb_spec a b); cbn
  | |- context [if negb (?a =? ?b) then _ else _] =>
      destruct (Z.eqb_spec a b); cbn
  | |- context [if (?a >=? ?b) then _ else _] =>
      rewrite (Z.geb_leb a b); destruct (Z.leb_spec b a); cbn
  end.

Ltac open_body it g :=
  unfold loop_body;
  rewrite bind_run;
  destruct (deliver (sig_during it) g) as [[[] gd] td] eqn:Hdeliver;
  unfold value, final, trace; cbn.

Lemma loop_body_final (it : iteration) (buf : list Z) (ra : Z) (g : globals) :
  final (loop_body it buf ra g) = final (deliver (sig_during it) g).
Proof.
  open_body it g. split_tests; reflexivity.
Qed.

Lemma loop_body_handle (it : iteration) (buf : list Z) (ra : Z) (g : globals) :
  pcm_handle (final (loop_body it buf ra g)) = pcm_handle g.
Proof. rewrite loop_body_final. apply deliver_handle. Qed.

Lemma loop_body_events (it : iteration) (buf : list Z) (ra : Z) (g : globals) :
  Forall (loop_event (pcm_handle g) buf) (trace (loop_body it buf ra g)).
Proof.
  pose proof (deliver_handle (sig_during it) g) as Hh.
  pose proof (deliver_events (sig_during it) g (pcm_handle g) buf) as Hev.
  open_body it g. cbn in Hh, Hev.
  split_tests; (apply Forall_app; split; [exact Hev|]);
    repeat constructor; auto.
Qed.

(** The counter across one pass: below the ceiling on [continue] and at
    the end of the body, at most the ceiling on [break]. *)
Lemma loop_body_counter (it : iteration) (buf : list Z) (ra : Z) (g : globals) :
  0 <= ra < max_recovery_attempts ->
  let r := value (loop_body it buf ra g) in
  match fst r with
  | ctl_next => 0 <= snd r < max_recovery_attempts
  | ctl_break => 0 <= snd r <= max_recovery_attempts
  end.
Proof.
  unfold max_recovery_attempts. intros Hra.
  open_body it g. split_tests; unfold max_recovery_attempts in *; lia.
Qed.

(** ** The flag automaton *)

Lemma flag_run_app (s : Z * bool) (t1 t2 : list event) :
  flag_run s (t1 ++ t2) =
  match flag_run s t1 with
  | Some s' => flag_run s' t2
  | None => None
  end.
Proof.
  revert s; induction t1 as [|e t1 IH]; intros s; [reflexivity|].
  cbn. destruct (flag_step s e); [apply IH | reflexivity].
Qed.

Lemma flag_run_neutral (s : Z * bool) (tr : list event) :
  forallb flag_neutral tr = true -> flag_run s tr = Some s.
Proof.
  revert s; induction tr as [|e tr IH]; intros s H; [reflexivity|].
  cbn in H. apply andb_true_iff in H as [He Htr].
  cbn. destruct s as [flag armed].
  destruct e; try discriminate He; cbn; apply IH; exact Htr.
Qed.

Lemma flag_run_deliver (sigs : list signal) (g : globals) (armed : bool) :
  flag_run (running g, armed) (trace (deliver sigs g)) =
  Some (running (final (deliver sigs g)), armed).
Proof.
  revert g; induction sigs as [|s rest IH]; intros g; [reflexivity|].
  cbn [deliver]. rewrite trace_bind, final_bind, flag_run_app.
  cbn. apply (IH {| running := 0; pcm_handle := pcm_handle g |}).
Qed.

(** A pass through the body uses up the licence the loop condition gave. *)
Lemma flag_run_body (it : iteration) (buf : list Z) (ra : Z) (g : globals) :
  flag_run (running g, true) (trace (loop_body it buf ra g)) =
  Some (running (final (loop_body it buf ra g)), false).
Proof.
  pose proof (flag_run_deliver (sig_during it) g true) as Hd.
  open_body it g. cbn in Hd.
  split_tests; rewrite flag_run_app, Hd; reflexivity.
Qed.

(** Once the flag is clear and no write is licensed, none follows. *)
Lemma flag_run_stopped (tr : list event) (s : Z * bool) :
  flag_run (0, false) tr = Some s -> s = (0, false) /\ none_ev is_write tr = true.
Proof.
  induction tr as [|e tr IH]; cbn; intros H.
  - inversion H; auto.
  - destruct e; cbn in *; try (apply IH; exact H).
    + destruct (Z.eqb_spec v 0) as [->|]; [|discriminate]. apply IH; exact H.
    + destruct (Z.eqb_spec v 0) as [->|]; [|discriminate]. apply IH; exact H.
    + discriminate.
Qed.

(** ** The loop *)

(** One unfolding of the loop: signals, the test of the flag, the body,
    and the remaining iterations. *)
Lemma while_running_cons (it : iteration) (rest : list iteration)
    (buf : list Z) (ra : Z) (g : globals) :
  let d := deliver (sig_before it) g in
  let b := loop_body it buf ra (final d) in
  let k := while_running rest buf (snd (value b)) (final b) in
  while_running (it :: rest) buf ra g =
  if running (final d) =? 0 then
    ((Stopped, ra), final d, trace d ++ [ev_load_running (running (final d))])
  else
    match fst (value b) with
    | ctl_break =>
        ((Aborted, snd (value b)), final b,
         trace d ++ ev_load_running (running (final d)) :: trace b)
    | ctl_next =>
        (value k, final k,
         trace d ++ ev_load_running (running (final d)) :: trace b ++ trace k)
    end.
Proof.
  cbn zeta. cbn [while_running].
  rewrite 2 bind_run. unfold load_running.
  unfold value, final, trace; cbn [fst snd].
  destruct (running (snd (fst (deliver (sig_before it) g))) =? 0); [reflexivity|].
  rewrite bind_run.
  destruct (loop_body it buf ra (snd (fst (deliver (sig_before it) g))))
    as [[[c ra'] gb] tb].
  unfold value, final, trace; cbn [fst snd].
  destruct c; cbn; [|rewrite app_nil_r; reflexivity].
  destruct (while_running rest buf ra' gb) as [[v gk] tk]; reflexivity.
Qed.

Lemma value_mk {A : Type} (a : A) (g : globals) (t : list event) :
  value (a, g, t) = a.
Proof. reflexivity. Qed.

Lemma final_mk {A : Type} (a : A) (g : globals) (t : list event) :
  final (a, g, t) = g.
Proof. reflexivity. Qed.

Lemma trace_mk {A : Type} (a : A) (g : globals) (t : list event) :
  trace (a, g, t) = t.
Proof. reflexivity. Qed.

(** Replaces a run of the loop on [it :: rest] by its unfolding and
    splits on the test of the flag and on how the body ended. *)
Ltac open_loop it rest buf ra g :=
  let Hw := fresh "Hw" in
  pose proof (while_running_cons it rest buf ra g) as Hw;
  cbn zeta in Hw; rewrite Hw; clear Hw;
  destruct (Z.eqb_spec (running (final (deliver (sig_before it) g))) 0)
    as [Hstop|Hgo];
  [ | destruct (fst (value (loop_body it buf ra (final (deliver (sig_before it) g)))))
        eqn:Hctl ];
  rewrite ?value_mk, ?final_mk, ?trace_mk.

Lemma while_running_handle (its : list iteration) (buf : list Z) (ra : Z)
    (g : globals) :
  pcm_handle (final (while_running its buf ra g)) = pcm_handle g.
Proof.
  revert ra g; induction its as [|it rest IH]; intros ra g; [reflexivity|].
  open_loop it rest buf ra g.
  - apply deliver_handle.
  - rewrite IH, loop_body_handle. apply deliver_handle.
  - rewrite loop_body_handle. apply deliver_handle.
Qed.

(** Everything the loop does is output, an access to the flag, a write
    of [buffer_frames] frames of the same buffer to the same handle, a
    re-prime or a pause. *)
Lemma while_running_events (its : list iteration) (buf : list Z) (ra : Z)
    (g : globals) :
  Forall (loop_event (pcm_handle g) buf) (trace (while_running its buf ra g)).
Proof.
  revert ra g; induction its as [|it rest IH]; intros ra g; [constructor|].
  pose proof (deliver_events (sig_before it) g (pcm_handle g) buf) as Hd.
  pose proof (loop_body_events it buf ra (final (deliver (sig_before it) g))) as Hb.
  rewrite deliver_handle in Hb.
  open_loop it rest buf ra g.
  - apply Forall_app; split; [exact Hd|]. repeat constructor.
  - apply Forall_app; split; [exact Hd|]. constructor; [exact I|].
    apply Forall_app; split; [exact Hb|].
    specialize (IH (snd (value (loop_body it buf ra (final (deliver (sig_before it) g)))))
                   (final (loop_body it buf ra (final (deliver (sig_before it) g))))).
    rewrite loop_body_handle, deliver_handle in IH. exact IH.
  - apply Forall_app; split; [exact Hd|]. constructor; [exact I|exact Hb].
Qed.

(** The counter stays within the ceiling, and is below it unless the
    loop aborted. *)
Lemma while_running_counter (its : list iteration) (buf : list Z) (ra : Z)
    (g : globals) :
  0 <= ra < max_recovery_attempts ->
  let r := value (while_running its buf ra g) in
  0 <= snd r <= max_recovery_attempts /\
  (fst r <> Aborted -> snd r < max_recovery_attempts).
Proof.
  revert ra g; induction its as [|it rest IH]; intros ra g Hra; cbn zeta.
  - cbn. lia.
  - pose proof (loop_body_counter it buf ra (final (deliver (sig_before it) g)) Hra)
      as Hb. cbn zeta in Hb.
    open_loop it rest buf ra g.
    + cbn. lia.
    + apply IH. exact Hb.
    + cbn. split; [exact Hb|]. intros H; contradiction H; reflexivity.
Qed.

(** The loop respects the flag discipline: every write is licensed by a
    read of the flag that returned non-zero. *)
Lemma flag_run_while (its : list iteration) (buf : list Z) (ra : Z)
    (g : globals) :
  flag_run (running g, false) (trace (while_running its buf ra g)) =
  Some (running (final (while_running its buf ra g)), false).
Proof.
  revert ra g; induction its as [|it rest IH]; intros ra g; [reflexivity|].
  pose proof (flag_run_deliver (sig_before it) g false) as Hd.
  pose proof (flag_run_body it buf ra (final (deliver (sig_before it) g))) as Hb.
  open_loop it rest buf ra g.
  - rewrite flag_run_app, Hd. cbn. rewrite Z.eqb_refl, Hstop. reflexivity.
  - rewrite flag_run_app, Hd. cbn. rewrite Z.eqb_refl.
    destruct (Z.eqb_spec (running (final (deliver (sig_before it) g))) 0);
      [contradiction|]. cbn.
    rewrite flag_run_app, Hb. apply IH.
  - rewrite flag_run_app, Hd. cbn. rewrite Z.eqb_refl.
    destruct (Z.eqb_spec (running (final (deliver (sig_before it) g))) 0);
      [contradiction|]. cbn. exact Hb.
Qed.

(** ** Counting events *)

Lemma count_ev_app (p : event -> bool) (t1 t2 : list event) :
  count_ev p (t1 ++ t2) = (count_ev p t1 + count_ev p t2)%nat.
Proof. unfold count_ev. rewrite filter_app, length_app. reflexivity. Qed.

Lemma none_ev_app (p : event -> bool) (t1 t2 : list event) :
  none_ev p (t1 ++ t2) = none_ev p t1 && none_ev p t2.
Proof. apply forallb_app. Qed.

Lemma none_ev_count (p : event -> bool) (tr : list event) :
  none_ev p tr = true -> count_ev p tr = 0%nat.
Proof.
  unfold none_ev, count_ev. induction tr as [|e tr IH]; cbn; [reflexivity|].
  intros H. apply andb_true_iff in H as [He Htr].
  destruct (p e); [discriminate|]. apply IH; exact Htr.
Qed.

Lemma none_ev_existsb (p : event -> bool) (tr : list event) :
  none_ev p tr = true -> existsb p tr = false.
Proof.
  unfold none_ev. induction tr as [|e tr IH]; cbn; [reflexivity|].
  intros H. apply andb_true_iff in H as [He Htr].
  destruct (p e); [discriminate|]. apply IH; exact Htr.
Qed.

Lemma deliver_handler_events (sigs : list signal) (g : globals) :
  forallb is_handler_event (trace (deliver sigs g)) = true.
Proof.
  revert g; induction sigs as [|s rest IH]; intros g; [reflexivity|].
  cbn [deliver]. rewrite trace_bind, forallb_app, IH. reflexivity.
Qed.

(** A trace of handler events holds no event of a kind [p] that handlers
    do not emit. *)
Lemma handler_events_none (p : event -> bool) (tr : list event) :
  (forall e, is_handler_event e = true -> p e = false) ->
  forallb is_handler_event tr = true -> none_ev p tr = true.
Proof.
  intros Hp. unfold none_ev. induction tr as [|e tr IH]; cbn; [reflexivity|].
  intros H. apply andb_true_iff in H as [He Htr].
  rewrite (Hp e He), IH by exact Htr. reflexivity.
Qed.

Lemma deliver_none (p : event -> bool) (sigs : list signal) (g : globals) :
  (forall e, is_handler_event e = true -> p e = false) ->
  none_ev p (trace (deliver sigs g)) = true.
Proof.
  intros Hp. apply handler_events_none; [exact Hp|apply deliver_handler_events].
Qed.

Ltac handler_kind :=
  let e := fresh "e" in
  let H := fresh "H" in
  intros e; destruct e as [[] ? ?| | | | | | | | | | | |]; cbn;
  intros H; solve [reflexivity | discriminate H].

(** * The claims on the loop body and on cleanup *)

(** C2, as the code has it.  An iteration whose write returns the full
    [buffer_frames] leaves the Recovery Counter as it was (it is not
    reset), and goes on to the next iteration; an iteration whose write
    underruns and whose re-prime succeeds sets the counter to 0. *)
Theorem C2_counter_reset_only_on_recovery
    (full recovered : iteration) (buf : list Z) (ra : Z) (g : globals)
    (Hfull : writei_ret full = buffer_frames)
    (Hunder : writei_ret recovered = - EPIPE)
    (Hprime : 0 <= prepare_ret recovered) :
  value (loop_body full buf ra g) = (ctl_next, ra) /\
  value (loop_body recovered buf ra g) = (ctl_next, 0).
Proof.
  split.
  - open_body full g. rewrite Hfull. reflexivity.
  - open_body recovered g. rewrite Hunder. cbn.
    destruct (Z.ltb_spec (prepare_ret recovered) 0); [lia|reflexivity].
Qed.

Lemma C2_counter_reset_only_on_recovery_witness :
  writei_ret it_full = buffer_frames /\
  writei_ret it_recover = - EPIPE /\
  0 <= prepare_ret it_recover /\
  value (loop_body it_full zero_buffer 2 an_open_handle) = (ctl_next, 2) /\
  value (loop_body it_recover zero_buffer 2 an_open_handle) = (ctl_next, 0).
Proof.
  split; [reflexivity|]. split; [reflexivity|]. split; [cbn; lia|].
  apply (C2_counter_reset_only_on_recovery it_full it_recover zero_buffer 2
           an_open_handle); [reflexivity | reflexivity | cbn; lia].
Defined.

(** C2 as stated fails: in the run below the second iteration writes the
    full count, the loop is still running after it, and the Recovery
    Counter left by the failed re-prime of the first iteration is 1. *)
Lemma C2_full_write_does_not_reset :
  ~ (forall (its : list iteration) (last : iteration) (g : globals),
        writei_ret last = buffer_frames ->
        fst (value (while_running (its ++ [last]) zero_buffer 0 g)) = Running ->
        snd (value (while_running (its ++ [last]) zero_buffer 0 g)) = 0).
Proof.
  intros H.
  specialize (H [it_fail] it_full an_open_handle eq_refl eq_refl).
  vm_compute in H. discriminate H.
Qed.

(** C3.  Started with the counter at 0, the loop never lets the Recovery
    Counter leave the range 0..3, however far the run has got (after any
    number [k] of the world's iterations).  An underrun whose re-prime
    fails adds one to the counter; if that reaches the ceiling the body
    breaks out of the loop at once, without pausing, and otherwise it
    pauses for 100000 microseconds and goes back to the loop condition. *)
Theorem C3_recovery_counter_ceiling
    (its : list iteration) (k : nat) (buf : list Z) (g : globals)
    (it : iteration) (ra : Z) (g' : globals)
    (Hunder : writei_ret it = - EPIPE)
    (Hprime : prepare_ret it < 0) :
  let run := value (while_running (firstn k its) buf 0 g) in
  let r := loop_body it buf ra g' in
  0 <= snd run <= max_recovery_attempts /\
  snd (value r) = ra + 1 /\
  (max_recovery_attempts <= ra + 1 ->
     fst (value r) = ctl_break /\ none_ev is_usleep (trace r) = true) /\
  (ra + 1 < max_recovery_attempts ->
     fst (value r) = ctl_next /\
     exists pre, trace r = pre ++ [ev_usleep 100000]).
Proof.
  cbn zeta. split.
  { apply while_running_counter. unfold max_recovery_attempts. lia. }
  pose proof (deliver_none is_usleep (sig_during it) g' ltac:(handler_kind)) as Hd.
  open_body it g'. cbn in Hd. rewrite Hunder. cbn.
  destruct (Z.ltb_spec (prepare_ret it) 0); [|lia]. cbn.
  rewrite Z.geb_leb.
  destruct (Z.leb_spec max_recovery_attempts (ra + 1)); cbn.
  - split; [reflexivity|]. split; [|lia]. intros _. split; [reflexivity|].
    unfold none_ev in *. rewrite forallb_app, Hd. reflexivity.
  - split; [reflexivity|]. split; [lia|]. intros _. split; [reflexivity|].
    eexists (td ++ [_; _; _; _]). rewrite <- app_assoc. reflexivity.
Qed.

Lemma C3_recovery_counter_ceiling_witness :
  writei_ret it_fail = - EPIPE /\
  prepare_ret it_fail < 0 /\
  0 <= snd (value (while_running (firstn 3 [it_fail; it_fail; it_fail; it_full])
                     zero_buffer 0 an_open_handle)) <= max_recovery_attempts /\
  snd (value (loop_body it_fail zero_buffer 2 an_open_handle)) = 2 + 1 /\
  (max_recovery_attempts <= 2 + 1 ->
     fst (value (loop_body it_fail zero_buffer 2 an_open_handle)) = ctl_break /\
     none_ev is_usleep (trace (loop_body it_fail zero_buffer 2 an_open_handle)) = true) /\
  (2 + 1 < max_recovery_attempts ->
     fst (value (loop_body it_fail zero_buffer 2 an_open_handle)) = ctl_next /\
     exists pre,
       trace (loop_body it_fail zero_buffer 2 an_open_handle) = pre ++ [ev_usleep 100000]).
Proof.
  split; [reflexivity|]. split; [cbn; lia|].
  apply (C3_recovery_counter_ceiling [it_fail; it_fail; it_fail; it_full] 3
           zero_buffer an_open_handle it_fail 2 an_open_handle);
    [reflexivity | cbn; lia].
Defined.

(** C7.  When the write returns fewer frames than [buffer_frames] (and no
    error), the body makes that one write and no other, prints the
    partial-write warning, pauses and goes back to the loop condition
    with the Recovery Counter as it was; the loop then carries on with
    the remaining iterations exactly as it would after any other pass,
    so the frames that were not written are not offered again. *)
Theorem C7_partial_write_continues
    (it : iteration) (rest : list iteration) (buf : list Z) (ra : Z)
    (g : globals)
    (Hshort : 0 <= writei_ret it < buffer_frames)
    (Hrun : running (final (deliver (sig_before it) g)) <> 0) :
  let r := loop_body it buf ra g in
  value r = (ctl_next, ra) /\
  trace r =
    trace (deliver (sig_during it) g) ++
    [ev_writei (pcm_handle g) buf buffer_frames (writei_ret it);
     ev_print stdout "Warning: Partial write (%ld/%d frames)\n"
              [arg_d (writei_ret it); arg_d buffer_frames];
     ev_usleep 1000] /\
  count_ev is_write (trace r) = 1%nat /\
  let r' := loop_body it buf ra (final (deliver (sig_before it) g)) in
  value (while_running (it :: rest) buf ra g) =
  value (while_running rest buf ra (final r')).
Proof.
  cbn zeta.
  assert (Hbody : forall g0, value (loop_body it buf ra g0) = (ctl_next, ra)).
  { intros g0. open_body it g0. split_tests; solve [reflexivity | lia]. }
  split; [apply Hbody|].
  split; [|split].
  - pose proof (deliver_handle (sig_during it) g) as Hh.
    open_body it g. cbn in Hh. rewrite Hh.
    split_tests; solve [reflexivity | lia].
  - pose proof (deliver_none is_write (sig_during it) g ltac:(handler_kind)) as Hd.
    apply none_ev_count in Hd.
    open_body it g. cbn in Hd.
    split_tests; try lia; unfold count_ev in *;
      rewrite filter_app, length_app, Hd; reflexivity.
  - open_loop it rest buf ra g.
    + contradiction.
    + rewrite Hbody. reflexivity.
    + rewrite Hbody in Hctl. discriminate Hctl.
Qed.

Lemma C7_partial_write_continues_witness :
  0 <= writei_ret it_partial < buffer_frames /\
  running (final (deliver (sig_before it_partial) an_open_handle)) <> 0 /\
  value (loop_body it_partial zero_buffer 2 an_open_handle) = (ctl_next, 2) /\
  trace (loop_body it_partial zero_buffer 2 an_open_handle) =
    trace (deliver (sig_during it_partial) an_open_handle) ++
    [ev_writei (pcm_handle an_open_handle) zero_buffer buffer_frames
               (writei_ret it_partial);
     ev_print stdout "Warning: Partial write (%ld/%d frames)\n"
              [arg_d (writei_ret it_partial); arg_d buffer_frames];
     ev_usleep 1000] /\
  count_ev is_write (trace (loop_body it_partial zero_buffer 2 an_open_handle)) = 1%nat /\
  value (while_running (it_partial :: [it_full]) zero_buffer 2 an_open_handle) =
  value (while_running [it_full] zero_buffer 2
           (final (loop_body it_partial zero_buffer 2
                     (final (deliver (sig_before it_partial) an_open_handle))))).
Proof.
  split; [unfold buffer_frames; cbn; lia|]. split; [cbn; lia|].
  apply (C7_partial_write_continues it_partial [it_full] zero_buffer 2 an_open_handle);
    unfold buffer_frames; cbn; lia.
Defined.

(** C8.  [cleanup_alsa] leaves [pcm_handle] null; a second call right
    after it does nothing (no library call, no output, no change of
    state); a call with a handle that was never opened does nothing;
    and a call with an open handle drains it, closes it and says so. *)
Theorem C8_cleanup_idempotent (g : globals) :
  let r1 := cleanup_alsa g in
  let r2 := cleanup_alsa (final r1) in
  pcm_handle (final r1) = None /\
  r2 = (tt, final r1, []) /\
  (pcm_handle g = None -> r1 = (tt, g, [])) /\
  (forall h, pcm_handle g = Some h ->
     trace r1 = [ev_drain h; ev_close h;
                 ev_print stdout "ALSA resources cleaned up.\n" []]).
Proof.
  cbn zeta. unfold cleanup_alsa. destruct g as [run [h|]]; cbn.
  - repeat split; [discriminate | intros h' H; inversion H; reflexivity].
  - repeat split. intros h' H; discriminate H.
Qed.

Lemma C8_cleanup_idempotent_witness :
  pcm_handle (final (cleanup_alsa an_open_handle)) = None /\
  cleanup_alsa (final (cleanup_alsa an_open_handle)) =
    (tt, final (cleanup_alsa an_open_handle), []) /\
  (pcm_handle an_open_handle = None ->
     cleanup_alsa an_open_handle = (tt, an_open_handle, [])) /\
  (forall h, pcm_handle an_open_handle = Some h ->
     trace (cleanup_alsa an_open_handle) =
       [ev_drain h; ev_close h; ev_print stdout "ALSA resources cleaned up.\n" []]).
Proof.
  exact (C8_cleanup_idempotent an_open_handle).
Defined.

(** * The whole program *)

(** [main] when a device is chosen: the banner, early signals,
    [init_alsa], and then either cleanup and exit code 1, or the loop
    followed (if it returns) by cleanup and exit code 0. *)
Lemma main_device_run (w : world) (argv : list string) (dev : string) :
  chosen_device argv = Some dev ->
  let d := deliver (sig_early w) initial_globals in
  let i := init_alsa w dev (final d) in
  let p := play_silence_loop w (final i) in
  let c1 := cleanup_alsa (final i) in
  let c2 := cleanup_alsa (final p) in
  main w argv initial_globals =
  if value i <? 0 then
    (Returned 1, final c1, banner ++ trace d ++ trace i ++ trace c1)
  else
    match value p with
    | Looping => (Looping, final p, banner ++ trace d ++ trace i ++ trace p)
    | Returned _ =>
        (Returned 0, final c2,
         banner ++ trace d ++ trace i ++ trace p ++ trace c2 ++ goodbye)
    end.
Proof.
  unfold chosen_device, main. cbn zeta.
  destruct (Z.of_nat (List.length argv) >? 2); [discriminate|].
  destruct ((Z.of_nat (List.length argv) =? 2)
            && (strcmp_eq0 (nth 1 argv "") "-h" || strcmp_eq0 (nth 1 argv "") "--help"));
    [discriminate|].
  intros Hdev. inversion Hdev as [Hd]. clear Hdev. subst dev.
  cbv beta iota zeta delta [bind printf emit setup_signals].
  unfold value, final, trace.
  destruct (deliver (sig_early w) initial_globals) as [[[] gd] td].
  cbn [fst snd].
  destruct (init_alsa w _ gd) as [[err gi] ti].
  cbn [fst snd].
  destruct (err <? 0).
  - destruct (cleanup_alsa gi) as [[[] gc] tc].
    cbv beta iota zeta delta [ret fst snd banner].
    cbn [app]. rewrite app_nil_r. reflexivity.
  - destruct (play_silence_loop w gi) as [[[[]|] gp] tp].
    + cbn [fst snd].
      destruct (cleanup_alsa gp) as [[[] gc] tc].
      cbv beta iota zeta delta [ret fst snd banner goodbye].
      cbn [app]. reflexivity.
    + cbv beta iota zeta delta [ret fst snd banner].
      cbn [app]. rewrite app_nil_r. reflexivity.
Qed.

(** [main] when no device is chosen: the usage text and nothing else. *)
Lemma main_usage_run (w : world) (argv : list string) :
  chosen_device argv = None ->
  let r := main w argv initial_globals in
  (value r = Returned 1 \/ value r = Returned 0) /\
  final r = initial_globals /\
  forallb is_print (trace r) = true.
Proof.
  unfold chosen_device, main. cbn zeta.
  destruct (Z.of_nat (List.length argv) >? 2).
  - intros _. vm_compute. auto.
  - destruct ((Z.of_nat (List.length argv) =? 2)
              && (strcmp_eq0 (nth 1 argv "") "-h" || strcmp_eq0 (nth 1 argv "") "--help")).
    + intros _. vm_compute. auto.
    + discriminate.
Qed.

Lemma init_alsa_run (w : world) (dev : string) (g : globals) :
  let r := init_alsa w dev g in
  running (final r) = running g /\
  forallb is_init_event (trace r) = true /\
  (value r = 0 \/ value r = -1) /\
  (open_ret w dev < 0 -> r = (-1, g, open_failure dev (open_ret w dev))) /\
  (0 <= open_ret w dev ->
     pcm_handle (final r) = Some (open_handle w) /\
     (value r = 0 <-> forall c, 0 <= hw_ret w c)).
Proof.
  cbn zeta. unfold init_alsa, snd_pcm_open, snd_pcm_hw, fprintf, printf, emit, ret,
    get_pcm_handle, set_pcm_handle, bind, value, final, trace, open_failure.
  destruct g as [run h]. cbn.
  split_tests;
    (split; [reflexivity|]; split; [reflexivity|]; split; [auto|]; split;
     [ intros Hneg; solve [reflexivity | lia]
     | intros Hopen; first [lia | split; [reflexivity|]; split; intros Hall] ]).
  all: try discriminate Hall; try reflexivity;
    try (intros c; destruct c; assumption);
    match goal with
    | H : hw_ret _ ?c < 0 |- _ => specialize (Hall c); lia
    end.
Qed.

(** ** The paths through [main] *)

Lemma cleanup_alsa_run (g : globals) :
  cleanup_alsa g =
  match pcm_handle g with
  | Some h => (tt, closed g, release h)
  | None => (tt, g, [])
  end.
Proof. unfold cleanup_alsa. destruct g as [run [h|]]; reflexivity. Qed.

Lemma play_silence_loop_run (w : world) (g : globals) :
  let k := while_running (iterations w) zero_buffer 0 g in
  play_silence_loop w g =
  if calloc_ok w then
    match fst (value k) with
    | Running => (Looping, final k, loop_entry ++ trace k)
    | _ => (Returned tt, final k, loop_entry ++ trace k ++ loop_exit)
    end
  else (Returned tt, g, alloc_failure).
Proof.
  cbn zeta. unfold play_silence_loop, calloc.
  cbv beta iota zeta delta [bind printf fprintf free emit ret].
  destruct (calloc_ok w); [|reflexivity].
  fold zero_buffer.
  destruct (while_running (iterations w) zero_buffer 0 g) as [[[st ra] gk] tk].
  unfold value, final, trace, loop_entry, loop_exit. cbn [fst snd app].
  destruct st; cbn [app]; rewrite ?app_nil_r; reflexivity.
Qed.

Lemma main_path_total (w : world) (argv : list string) :
  main_path w argv (main w argv initial_globals).
Proof.
  destruct (chosen_device argv) as [dev|] eqn:Hdev.
  2: { pose proof (main_usage_run w argv Hdev) as (Hv & Hf & Ht).
       apply path_usage; assumption. }
  pose proof (main_device_run w argv dev Hdev) as Hmain. cbn zeta in Hmain.
  fold (after_signals w) in Hmain. fold (after_init w dev) in Hmain.
  rewrite Hmain. clear Hmain.
  pose proof (init_alsa_run w dev (final (after_signals w)))
    as (Hrun & Hev & Hval & Hfail & Hok).
  fold (after_init w dev) in Hrun, Hev, Hval, Hfail, Hok.
  assert (Hnull : pcm_handle (final (after_signals w)) = None)
    by apply deliver_handle.
  destruct (Z.lt_ge_cases (open_ret w dev) 0) as [Hneg|Hpos].
  - rewrite (Hfail Hneg). rewrite value_mk, final_mk, trace_mk.
    change (-1 <? 0) with true. cbv iota.
    rewrite cleanup_alsa_run, Hnull. rewrite final_mk, trace_mk, app_nil_r.
    apply path_open_failed; assumption.
  - destruct (Hok Hpos) as [Hh _].
    assert (Hk : pcm_handle (final (the_loop w dev)) = Some (open_handle w)).
    { unfold the_loop. rewrite while_running_handle. exact Hh. }
    destruct Hval as [Hval|Hval]; rewrite Hval.
    + change (0 <? 0) with false. cbv iota.
      rewrite play_silence_loop_run. cbn zeta. fold (the_loop w dev).
      destruct (calloc_ok w) eqn:Hc.
      * destruct (fst (value (the_loop w dev))) eqn:Hst;
          rewrite ?value_mk, ?final_mk, ?trace_mk.
        -- apply path_looping; assumption.
        -- rewrite cleanup_alsa_run, Hk.
           rewrite final_mk, trace_mk.
           apply path_loop_ended; try assumption. rewrite Hst; discriminate.
        -- rewrite cleanup_alsa_run, Hk.
           rewrite final_mk, trace_mk.
           apply path_loop_ended; try assumption. rewrite Hst; discriminate.
      * rewrite ?value_mk, ?final_mk, ?trace_mk.
        rewrite cleanup_alsa_run, Hh. rewrite final_mk, trace_mk.
        apply path_no_buffer; assumption.
    + change (-1 <? 0) with true. cbv iota.
      rewrite cleanup_alsa_run, Hh. rewrite final_mk, trace_mk.
      apply path_config_failed; assumption.
Qed.

(** ** Kinds of events in the parts of a run *)

Lemma forallb_none (q p : event -> bool) (tr : list event) :
  (forall e, q e = true -> p e = false) ->
  forallb q tr = true -> none_ev p tr = true.
Proof.
  intros Hp. unfold none_ev. induction tr as [|e tr IH]; cbn; [reflexivity|].
  intros H. apply andb_true_iff in H as [He Htr].
  rewrite (Hp e He), IH by exact Htr. reflexivity.
Qed.

Lemma Forall_none (P : event -> Prop) (p : event -> bool) (tr : list event) :
  (forall e, P e -> p e = false) ->
  Forall P tr -> none_ev p tr = true.
Proof.
  intros Hp H. unfold none_ev. induction H as [|e tr He Htr IH]; cbn; [reflexivity|].
  rewrite (Hp e He), IH. reflexivity.
Qed.

Lemma signals_none (p : event -> bool) (w : world) :
  (forall e, is_handler_event e = true -> p e = false) ->
  none_ev p (trace (after_signals w)) = true.
Proof. intros Hp. apply deliver_none; exact Hp. Qed.

Lemma init_none (p : event -> bool) (w : world) (dev : string) :
  (forall e, is_init_event e = true -> p e = false) ->
  none_ev p (trace (after_init w dev)) = true.
Proof.
  intros Hp. apply (forallb_none is_init_event); [exact Hp|].
  apply init_alsa_run.
Qed.

Lemma loop_none (p : event -> bool) (w : world) (dev : string) :
  (forall h buf e, loop_event h buf e -> p e = false) ->
  none_ev p (trace (the_loop w dev)) = true.
Proof.
  intros Hp. eapply Forall_none; [apply Hp|]. apply while_running_events.
Qed.

Ltac init_kind :=
  let e := fresh "e" in
  let H := fresh "H" in
  intros e; destruct e; cbn; intros H; solve [reflexivity | discriminate H].

Ltac loop_kind :=
  let e := fresh "e" in
  let H := fresh "H" in
  intros ? ? e; destruct e; cbn; intros H; solve [reflexivity | contradiction].

(** Shows that no event of some kind occurs in a trace assembled from
    the parts of a run. *)
Ltac split_parts :=
  repeat rewrite none_ev_app;
  repeat match goal with
         | |- (_ && _) = true => apply andb_true_intro; split
         end.

Ltac no_events :=
  split_parts;
  first [ reflexivity
        | apply signals_none; handler_kind
        | apply init_none; init_kind
        | apply loop_none; loop_kind ].

Lemma released_once (pre post : list event) (h : snd_pcm_t) :
  none_ev is_drain pre = true ->
  none_ev is_close pre = true ->
  forallb is_print post = true ->
  count_ev is_drain (pre ++ [ev_drain h; ev_close h] ++ post) = 1%nat /\
  count_ev is_close (pre ++ [ev_drain h; ev_close h] ++ post) = 1%nat.
Proof.
  intros Hd Hc Hp.
  assert (Hpd : none_ev is_drain post = true).
  { apply (forallb_none is_print); [|exact Hp]. init_kind. }
  assert (Hpc : none_ev is_close post = true).
  { apply (forallb_none is_print); [|exact Hp]. init_kind. }
  rewrite !count_ev_app.
  rewrite (none_ev_count _ _ Hd), (none_ev_count _ _ Hc),
    (none_ev_count _ _ Hpd), (none_ev_count _ _ Hpc).
  split; reflexivity.
Qed.

Lemma tuple_eq {A : Type} (a a' : A) (g g' : globals) (t t' : list event) :
  (a, g, t) = (a', g', t') -> a = a' /\ g = g' /\ t = t'.
Proof. intros H. inversion H. auto. Qed.

(** Splits a run of [main] whose result is known (by [Hmain]) into the
    six paths, with the equations between the parts of the result and
    those of the path. *)
Ltac main_cases w argv Hmain :=
  let P := fresh "P" in
  let r := fresh "r" in
  let Hr := fresh "Hr" in
  pose proof (main_path_total w argv) as P; rewrite Hmain in P;
  match type of P with main_path _ _ ?t => remember t as r eqn:Hr end;
  destruct P as [r Hdev Hv Hf Ht | dev Hdev Hneg | dev Hdev Hpos Hval
                | dev Hdev Hpos Hval Hc | dev Hdev Hpos Hval Hc Hst
                | dev Hdev Hpos Hval Hc Hst];
  [ subst r | apply tuple_eq in Hr as (Hcode & Hg & Htr) .. ].

Lemma never_opened (tr : list event) :
  none_ev is_open_ok tr = true -> handle_opened tr = false.
Proof. apply none_ev_existsb. Qed.

(** * The claims on the whole program *)

(** C4.  Whenever [main] returns and the device was opened during the
    run, the run drained and then closed that handle, once each, with
    nothing but console output after the close, and [pcm_handle] is null
    at exit.  This covers the clean stop, both kinds of loop abort, the
    failed allocation of the buffer, and a configuration failure after a
    successful open. *)
Theorem C4_handle_drained_and_closed_once
    (w : world) (argv : list string) (code : Z) (g : globals) (tr : list event)
    (Hmain : main w argv initial_globals = (Returned code, g, tr))
    (Hopen : handle_opened tr = true) :
  pcm_handle g = None /\
  count_ev is_drain tr = 1%nat /\
  count_ev is_close tr = 1%nat /\
  exists pre post,
    tr = pre ++ [ev_drain (open_handle w); ev_close (open_handle w)] ++ post /\
    none_ev is_drain pre = true /\
    none_ev is_close pre = true /\
    forallb is_print post = true.
Proof.
  assert (Hshape : pcm_handle g = None /\
    exists pre post,
      tr = pre ++ [ev_drain (open_handle w); ev_close (open_handle w)] ++ post /\
      none_ev is_drain pre = true /\
      none_ev is_close pre = true /\
      forallb is_print post = true).
  { main_cases w argv Hmain; try discriminate Hcode; try subst g tr.
    - rewrite trace_mk in Ht.
      rewrite (never_opened tr) in Hopen; [discriminate|].
      apply (forallb_none is_print); [init_kind | exact Ht].
    - rewrite never_opened in Hopen; [discriminate|].
      split_parts; [reflexivity | apply signals_none; handler_kind |].
      cbn. destruct (Z.leb_spec 0 (open_ret w dev)); [lia|reflexivity].
    - split; [reflexivity|].
      exists (banner ++ trace (after_signals w) ++ trace (after_init w dev)),
        [ev_print stdout "ALSA resources cleaned up.\n" []].
      split; [rewrite <- !app_assoc; reflexivity|].
      split; [no_events|]. split; [no_events|reflexivity].
    - split; [reflexivity|].
      exists (banner ++ trace (after_signals w) ++ trace (after_init w dev)
              ++ alloc_failure),
        (ev_print stdout "ALSA resources cleaned up.\n" [] :: goodbye).
      split; [rewrite <- !app_assoc; reflexivity|].
      split; [no_events|]. split; [no_events|reflexivity].
    - split; [reflexivity|].
      exists (banner ++ trace (after_signals w) ++ trace (after_init w dev)
              ++ loop_entry ++ trace (the_loop w dev) ++ loop_exit),
        (ev_print stdout "ALSA resources cleaned up.\n" [] :: goodbye).
      split; [rewrite <- !app_assoc; reflexivity|].
      split; [no_events|]. split; [no_events|reflexivity]. }
  destruct Hshape as (Hnull & pre & post & Htr & Hd & Hc & Hp).
  split; [exact Hnull|].
  destruct (released_once pre post (open_handle w) Hd Hc Hp) as [H1 H2].
  rewrite <- Htr in H1, H2.
  split; [exact H1|]. split; [exact H2|].
  exists pre, post. auto.
Qed.

Lemma C4_handle_drained_and_closed_once_witness :
  let r := main (good_world [it_full; it_stop]) ["play_silence"] initial_globals in
  handle_opened (trace r) = true /\
  pcm_handle (final r) = None /\
  count_ev is_drain (trace r) = 1%nat /\
  count_ev is_close (trace r) = 1%nat /\
  exists pre post,
    trace r = pre ++ [ev_drain 1%positive; ev_close 1%positive] ++ post /\
    none_ev is_drain pre = true /\
    none_ev is_close pre = true /\
    forallb is_print post = true.
Proof.
  cbn zeta. split; [vm_compute; reflexivity|].
  apply (C4_handle_drained_and_closed_once
           (good_world [it_full; it_stop]) ["play_silence"] 0);
    vm_compute; reflexivity.
Defined.

(** When every configuration call succeeds, so does [init_alsa]. *)
Lemma after_init_ok (w : world) (dev : string) :
  0 <= open_ret w dev ->
  (forall c, 0 <= hw_ret w c) ->
  value (after_init w dev) = 0.
Proof.
  intros Hopen Hhw.
  pose proof (init_alsa_run w dev (final (after_signals w)))
    as (_ & _ & _ & _ & Hok).
  apply (Hok Hopen). exact Hhw.
Qed.

(** C1, as the code has it.  When the device was opened and configured,
    the buffer allocated, and the loop has ended, be it stopped by the
    flag or aborted (ceiling reached, or a write error other than an
    underrun), [main] frees the buffer, drains and closes the handle and
    returns 0: the exit code does not tell an abort from a clean stop. *)
Theorem C1_loop_exit_code_is_zero
    (w : world) (argv : list string) (dev : string)
    (Hdev : chosen_device argv = Some dev)
    (Hopen : 0 <= open_ret w dev)
    (Hhw : forall c, 0 <= hw_ret w c)
    (Hbuf : calloc_ok w = true)
    (Hend : fst (value (the_loop w dev)) = Aborted \/
            fst (value (the_loop w dev)) = Stopped) :
  exists pre,
    main w argv initial_globals =
    (Returned 0, closed (final (the_loop w dev)),
     pre ++ trace (the_loop w dev) ++ loop_exit
     ++ release (open_handle w) ++ goodbye).
Proof.
  pose proof (after_init_ok w dev Hopen Hhw) as Hinit.
  pose proof (main_path_total w argv) as P.
  destruct P as [r Hdev' Hv Hf Ht | dev' Hdev' Hneg | dev' Hdev' Hpos Hval
                | dev' Hdev' Hpos Hval Hc | dev' Hdev' Hpos Hval Hc Hst
                | dev' Hdev' Hpos Hval Hc Hst];
    rewrite Hdev in Hdev'; try discriminate Hdev';
    injection Hdev' as <-.
  - lia.
  - rewrite Hinit in Hval. discriminate Hval.
  - rewrite Hbuf in Hc. discriminate Hc.
  - rewrite Hst in Hend. destruct Hend; discriminate.
  - exists (banner ++ trace (after_signals w) ++ trace (after_init w dev)
            ++ loop_entry).
    rewrite <- !app_assoc. reflexivity.
Qed.

Lemma C1_loop_exit_code_is_zero_witness :
  let w := good_world [it_fail; it_fail; it_fail] in
  chosen_device ["play_silence"] = Some "default" /\
  0 <= open_ret w "default" /\
  (forall c, 0 <= hw_ret w c) /\
  calloc_ok w = true /\
  (fst (value (the_loop w "default")) = Aborted \/
   fst (value (the_loop w "default")) = Stopped) /\
  exists pre,
    main w ["play_silence"] initial_globals =
    (Returned 0, closed (final (the_loop w "default")),
     pre ++ trace (the_loop w "default") ++ loop_exit
     ++ release (open_handle w) ++ goodbye).
Proof.
  cbn zeta.
  split; [reflexivity|]. split; [cbn; lia|]. split; [intros c; cbn; lia|].
  split; [reflexivity|]. split; [left; reflexivity|].
  apply (C1_loop_exit_code_is_zero (good_world [it_fail; it_fail; it_fail])
           ["play_silence"] "default");
    [reflexivity | cbn; lia | intros c; cbn; lia | reflexivity | left; reflexivity].
Defined.

(** C1 as stated fails.  With three underruns whose re-primes all fail,
    the loop aborts with the counter at the ceiling, and with a write
    error other than an underrun it aborts at once; in both runs [main]
    returns 0, not a non-zero code. *)
Lemma C1_abort_exits_with_zero :
  let w := good_world [it_fail; it_fail; it_fail] in
  let w' := good_world [it_full; it_fatal] in
  value (the_loop w "default") = (Aborted, max_recovery_attempts) /\
  value (the_loop w' "default") = (Aborted, 0) /\
  ~ (forall code, value (main w ["play_silence"] initial_globals) = Returned code ->
                  code <> 0) /\
  ~ (forall code, value (main w' ["play_silence"] initial_globals) = Returned code ->
                  code <> 0).
Proof.
  cbn zeta. split; [reflexivity|]. split; [reflexivity|].
  split; intros H; apply (H 0); reflexivity.
Qed.

(** C9.  When [snd_pcm_open] fails for the chosen device, [init_alsa]
    stops there: it has made that one call, printed the message about
    the open, and returns -1 without touching the globals.  [main] then
    returns 1, and its run holds no write to the device and no read of
    the flag: the loop did not run at all. *)
Theorem C9_open_failure_exits_1
    (w : world) (argv : list string) (dev : string)
    (Hdev : chosen_device argv = Some dev)
    (Hopen : open_ret w dev < 0) :
  after_init w dev =
    (-1, final (after_signals w),
     [ev_open dev (open_ret w dev);
      ev_print stderr "Error: Cannot open PCM device %s: %s\n"
               [arg_s dev; arg_err (open_ret w dev)]]) /\
  main w argv initial_globals =
    (Returned 1, final (after_signals w),
     banner ++ trace (after_signals w) ++ trace (after_init w dev)) /\
  none_ev is_write (trace (main w argv initial_globals)) = true /\
  none_ev is_load (trace (main w argv initial_globals)) = true /\
  none_ev is_calloc (trace (main w argv initial_globals)) = true.
Proof.
  assert (Hinit : after_init w dev =
            (-1, final (after_signals w), open_failure dev (open_ret w dev))).
  { apply init_alsa_run. exact Hopen. }
  assert (Hmain : main w argv initial_globals =
            (Returned 1, final (after_signals w),
             banner ++ trace (after_signals w) ++ trace (after_init w dev))).
  { pose proof (main_path_total w argv) as P.
    destruct P as [r Hdev' Hv Hf Ht | dev' Hdev' Hneg | dev' Hdev' Hpos Hval
                  | dev' Hdev' Hpos Hval Hc | dev' Hdev' Hpos Hval Hc Hst
                  | dev' Hdev' Hpos Hval Hc Hst];
      rewrite Hdev in Hdev'; try discriminate Hdev';
      injection Hdev' as <-; try lia.
    rewrite Hinit, trace_mk. reflexivity. }
  split; [exact Hinit|]. split; [exact Hmain|].
  rewrite Hmain, trace_mk.
  repeat split; split_parts;
    first [ reflexivity
          | apply signals_none; handler_kind
          | rewrite Hinit; reflexivity ].
Qed.

Lemma C9_open_failure_exits_1_witness :
  let w := no_device_world in
  let argv := ["play_silence"; "hw:9,9"] in
  chosen_device argv = Some "hw:9,9" /\
  open_ret w "hw:9,9" < 0 /\
  after_init w "hw:9,9" =
    (-1, final (after_signals w),
     [ev_open "hw:9,9" (open_ret w "hw:9,9");
      ev_print stderr "Error: Cannot open PCM device %s: %s\n"
               [arg_s "hw:9,9"; arg_err (open_ret w "hw:9,9")]]) /\
  main w argv initial_globals =
    (Returned 1, final (after_signals w),
     banner ++ trace (after_signals w) ++ trace (after_init w "hw:9,9")) /\
  none_ev is_write (trace (main w argv initial_globals)) = true /\
  none_ev is_load (trace (main w argv initial_globals)) = true /\
  none_ev is_calloc (trace (main w argv initial_globals)) = true.
Proof.
  cbn zeta. split; [reflexivity|]. split; [cbn; lia|].
  apply (C9_open_failure_exits_1 no_device_world ["play_silence"; "hw:9,9"] "hw:9,9");
    [reflexivity | cbn; lia].
Defined.

(** C10.  When the device is open and configured but [calloc] returns
    NULL, [play_silence_loop] reports it and returns having done nothing
    else; [main] then drains and closes the handle and returns 0.  The
    run holds no write to the device and no read of the flag. *)
Theorem C10_allocation_failure_exits_0
    (w : world) (argv : list string) (dev : string)
    (Hdev : chosen_device argv = Some dev)
    (Hopen : 0 <= open_ret w dev)
    (Hhw : forall c, 0 <= hw_ret w c)
    (Hbuf : calloc_ok w = false) :
  play_silence_loop w (final (after_init w dev)) =
    (Returned tt, final (after_init w dev),
     [ev_calloc (buffer_frames * 2) sizeof_short false;
      ev_print stderr "Error: Cannot allocate silence buffer\n" []]) /\
  main w argv initial_globals =
    (Returned 0, closed (final (after_init w dev)),
     banner ++ trace (after_signals w) ++ trace (after_init w dev)
     ++ trace (play_silence_loop w (final (after_init w dev)))
     ++ [ev_drain (open_handle w); ev_close (open_handle w);
         ev_print stdout "ALSA resources cleaned up.\n" [];
         ev_print stdout "Program terminated successfully.\n" []]) /\
  none_ev is_write (trace (main w argv initial_globals)) = true /\
  none_ev is_load (trace (main w argv initial_globals)) = true.
Proof.
  pose proof (after_init_ok w dev Hopen Hhw) as Hinit.
  assert (Hloop : play_silence_loop w (final (after_init w dev)) =
            (Returned tt, final (after_init w dev), alloc_failure)).
  { rewrite play_silence_loop_run. cbn zeta. rewrite Hbuf. reflexivity. }
  assert (Hmain : main w argv initial_globals =
            (Returned 0, closed (final (after_init w dev)),
             banner ++ trace (after_signals w) ++ trace (after_init w dev)
             ++ alloc_failure ++ release (open_handle w) ++ goodbye)).
  { pose proof (main_path_total w argv) as P.
    destruct P as [r Hdev' Hv Hf Ht | dev' Hdev' Hneg | dev' Hdev' Hpos Hval
                  | dev' Hdev' Hpos Hval Hc | dev' Hdev' Hpos Hval Hc Hst
                  | dev' Hdev' Hpos Hval Hc Hst];
      rewrite Hdev in Hdev'; try discriminate Hdev';
      injection Hdev' as <-; try lia;
      try (rewrite Hbuf in Hc; discriminate Hc).
    reflexivity. }
  split; [exact Hloop|]. split.
  { rewrite Hmain, Hloop, trace_mk. reflexivity. }
  rewrite Hmain, trace_mk. split; no_events.
Qed.

Lemma C10_allocation_failure_exits_0_witness :
  let w := no_memory_world in
  let argv := ["play_silence"] in
  chosen_device argv = Some "default" /\
  0 <= open_ret w "default" /\
  (forall c, 0 <= hw_ret w c) /\
  calloc_ok w = false /\
  play_silence_loop w (final (after_init w "default")) =
    (Returned tt, final (after_init w "default"),
     [ev_calloc (buffer_frames * 2) sizeof_short false;
      ev_print stderr "Error: Cannot allocate silence buffer\n" []]) /\
  main w argv initial_globals =
    (Returned 0, closed (final (after_init w "default")),
     banner ++ trace (after_signals w) ++ trace (after_init w "default")
     ++ trace (play_silence_loop w (final (after_init w "default")))
     ++ [ev_drain (open_handle w); ev_close (open_handle w);
         ev_print stdout "ALSA resources cleaned up.\n" [];
         ev_print stdout "Program terminated successfully.\n" []]) /\
  none_ev is_write (trace (main w argv initial_globals)) = true /\
  none_ev is_load (trace (main w argv initial_globals)) = true.
Proof.
  cbn zeta. split; [reflexivity|]. split; [cbn; lia|].
  split; [intros c; cbn; lia|]. split; [reflexivity|].
  apply (C10_allocation_failure_exits_0 no_memory_world ["play_silence"] "default");
    [reflexivity | cbn; lia | intros c; cbn; lia | reflexivity].
Defined.

(** ** The flag discipline on whole runs *)

Lemma forallb_weaken (q q' : event -> bool) (tr : list event) :
  (forall e, q e = true -> q' e = true) ->
  forallb q tr = true -> forallb q' tr = true.
Proof.
  intros Hq. induction tr as [|e tr IH]; cbn; [reflexivity|].
  intros H. apply andb_true_iff in H as [He Htr].
  rewrite (Hq e He), IH by exact Htr. reflexivity.
Qed.

Lemma flag_run_signals (w : world) :
  flag_run (running initial_globals, false) (trace (after_signals w)) =
  Some (running (final (after_signals w)), false).
Proof. apply flag_run_deliver. Qed.

Lemma flag_run_init (w : world) (dev : string) (armed : bool) :
  flag_run (running (final (after_signals w)), armed) (trace (after_init w dev)) =
  Some (running (final (after_init w dev)), armed).
Proof.
  pose proof (init_alsa_run w dev (final (after_signals w))) as (Hrun & Hev & _).
  fold (after_init w dev) in Hrun, Hev.
  rewrite Hrun. apply flag_run_neutral.
  apply (forallb_weaken is_init_event); [init_kind | exact Hev].
Qed.

Lemma flag_run_the_loop (w : world) (dev : string) :
  flag_run (running (final (after_init w dev)), false) (trace (the_loop w dev)) =
  Some (running (final (the_loop w dev)), false).
Proof. apply flag_run_while. Qed.

(** Every run of [main] respects the flag discipline. *)
Lemma main_flag_run (w : world) (argv : list string) :
  exists s,
    flag_run (running initial_globals, false)
             (trace (main w argv initial_globals)) = Some s.
Proof.
  destruct (main_path_total w argv)
    as [r Hdev Hv Hf Ht | dev Hdev Hneg | dev Hdev Hpos Hval
       | dev Hdev Hpos Hval Hc | dev Hdev Hpos Hval Hc Hst
       | dev Hdev Hpos Hval Hc Hst];
    rewrite ?trace_mk.
  - eexists. apply flag_run_neutral.
    apply (forallb_weaken is_print); [init_kind | exact Ht].
  - eexists. rewrite flag_run_app. rewrite (flag_run_neutral _ banner) by reflexivity.
    rewrite flag_run_app, flag_run_signals.
    apply flag_run_neutral. reflexivity.
  - eexists. rewrite flag_run_app. rewrite (flag_run_neutral _ banner) by reflexivity.
    rewrite flag_run_app, flag_run_signals.
    rewrite flag_run_app, flag_run_init.
    apply flag_run_neutral. reflexivity.
  - eexists. rewrite flag_run_app. rewrite (flag_run_neutral _ banner) by reflexivity.
    rewrite flag_run_app, flag_run_signals.
    rewrite flag_run_app, flag_run_init.
    apply flag_run_neutral. reflexivity.
  - eexists. rewrite flag_run_app. rewrite (flag_run_neutral _ banner) by reflexivity.
    rewrite flag_run_app, flag_run_signals.
    rewrite flag_run_app, flag_run_init.
    rewrite flag_run_app. rewrite (flag_run_neutral _ loop_entry) by reflexivity.
    apply flag_run_the_loop.
  - eexists. rewrite flag_run_app. rewrite (flag_run_neutral _ banner) by reflexivity.
    rewrite flag_run_app, flag_run_signals.
    rewrite flag_run_app, flag_run_init.
    rewrite flag_run_app, flag_run_app.
    rewrite (flag_run_neutral _ loop_entry) by reflexivity.
    rewrite flag_run_app, flag_run_the_loop.
    rewrite (flag_run_neutral _ loop_exit) by reflexivity.
    apply flag_run_neutral. reflexivity.
Qed.

(** In an accepted trace, nothing is written after the flag was read
    as zero. *)
Lemma no_write_after_stop_read (s s' : Z * bool) (pre post : list event) :
  flag_run s (pre ++ ev_load_running 0 :: post) = Some s' ->
  none_ev is_write post = true.
Proof.
  rewrite flag_run_app. destruct (flag_run s pre) as [[flag armed]|]; [|discriminate].
  cbn [flag_run flag_step].
  destruct (Z.eqb_spec 0 flag) as [<-|]; [|discriminate].
  change (negb (0 =? 0)) with false.
  intros H. apply (flag_run_stopped post s' H).
Qed.

(** In an accepted trace, a licence to write comes from a read of the
    flag that returned non-zero, with no read and no write since. *)
Lemma armed_after (f f' : Z) (pre : list event) :
  flag_run (f, false) pre = Some (f', true) ->
  exists pre' v mid,
    pre = pre' ++ ev_load_running v :: mid /\ v <> 0 /\
    none_ev is_write mid = true /\ none_ev is_load mid = true.
Proof.
  revert f'. induction pre as [|e pre IH] using rev_ind; intros f' H.
  - discriminate H.
  - rewrite flag_run_app in H.
    destruct (flag_run (f, false) pre) as [[f1 a1]|] eqn:Hpre; [|discriminate H].
    assert (Hkeep : a1 = true -> is_write e = false -> is_load e = false ->
              exists pre' v mid,
                pre ++ [e] = pre' ++ ev_load_running v :: mid /\ v <> 0 /\
                none_ev is_write mid = true /\ none_ev is_load mid = true).
    { intros -> Hw Hl. destruct (IH f1 eq_refl) as (pre' & v & mid & -> & Hv & Hmw & Hml).
      exists pre', v, (mid ++ [e]). rewrite <- app_assoc. split; [reflexivity|].
      split; [exact Hv|]. rewrite !none_ev_app, Hmw, Hml. cbn. rewrite Hw, Hl.
      split; reflexivity. }
    destruct e; cbn in H;
      try (injection H as <- ->; apply Hkeep; reflexivity).
    + destruct (Z.eqb_spec v f1) as [->|]; [|discriminate H].
      destruct (Z.eqb_spec f1 0) as [->|Hne]; [discriminate H|].
      exists pre, f1, []. repeat split; auto.
    + destruct (v =? 0); [|discriminate H].
      injection H as <- ->. apply Hkeep; reflexivity.
    + destruct a1; discriminate H.
Qed.

Lemma write_is_licensed (f : Z) (s : Z * bool) (pre post : list event) (e : event) :
  flag_run (f, false) (pre ++ e :: post) = Some s ->
  is_write e = true ->
  exists pre' v mid,
    pre = pre' ++ ev_load_running v :: mid /\ v <> 0 /\
    none_ev is_write mid = true /\ none_ev is_load mid = true.
Proof.
  rewrite flag_run_app. intros H He.
  destruct (flag_run (f, false) pre) as [[f1 a1]|] eqn:Hpre; [|discriminate H].
  destruct e; try discriminate He. cbn in H.
  destruct a1; [|discriminate H].
  apply (armed_after f f1 pre Hpre).
Qed.

(** Once the flag is clear, at most the write that was already licensed
    is made. *)
Lemma writes_after_clear (armed : bool) (s : Z * bool) (tr : list event) :
  flag_run (0, armed) tr = Some s ->
  (count_ev is_write tr <= if armed then 1 else 0)%nat.
Proof.
  revert armed. induction tr as [|e tr IH]; intros armed H.
  - cbn. destruct armed; lia.
  - cbn in H. destruct e; cbn in H;
      try (specialize (IH armed H); exact IH).
    + destruct (Z.eqb_spec v 0) as [->|]; [|discriminate H].
      cbn in H. specialize (IH false H).
      change (count_ev is_write (ev_load_running 0 :: tr)) with (count_ev is_write tr).
      destruct armed; cbn in IH |- *; lia.
    + destruct (Z.eqb_spec v 0) as [->|]; [|discriminate H].
      specialize (IH armed H). exact IH.
    + destruct armed; [|discriminate H]. specialize (IH false H).
      change (count_ev is_write (ev_writei h buf frames ret0 :: tr))
        with (S (count_ev is_write tr)).
      cbn in IH. lia.
Qed.

Lemma store_clears_flag (s s' : Z * bool) (pre post : list event) (v : Z) :
  flag_run s (pre ++ ev_store_running v :: post) = Some s' ->
  v = 0 /\ (count_ev is_write post <= 1)%nat.
Proof.
  rewrite flag_run_app. destruct (flag_run s pre) as [[flag armed]|]; [|discriminate].
  cbn [flag_run flag_step].
  destruct (Z.eqb_spec v 0) as [->|]; [|discriminate].
  intros H. split; [reflexivity|].
  pose proof (writes_after_clear armed s' post H) as Hle.
  destruct armed; lia.
Qed.

(** C5.  In every run of [main]: accesses to the flag and writes to the
    device follow the discipline of [flag_run] (each read returns the
    current value of the flag, each store clears it, each write comes
    after a read of its own that returned non-zero); no write follows a
    read of the flag that returned zero; each write is preceded by a
    read that returned non-zero, with no other read or write in
    between; and after a signal handler has cleared the flag at most
    the one write already let through by the previous read is made.
    In the loop itself, when the flag is clear or a signal arrives
    before the loop condition is evaluated, the loop stops at that
    evaluation, whatever iterations the world still holds, and writes
    nothing. *)
Theorem C5_flag_checked_before_every_write
    (w : world) (argv : list string)
    (it : iteration) (rest : list iteration) (buf : list Z) (ra : Z)
    (g : globals)
    (Hflag : running g = 0 \/ sig_before it <> []) :
  let tr := trace (main w argv initial_globals) in
  (exists s, flag_run (running initial_globals, false) tr = Some s) /\
  (forall pre post,
     tr = pre ++ ev_load_running 0 :: post -> none_ev is_write post = true) /\
  (forall pre e post,
     tr = pre ++ e :: post -> is_write e = true ->
     exists pre' v mid,
       pre = pre' ++ ev_load_running v :: mid /\ v <> 0 /\
       none_ev is_write mid = true /\ none_ev is_load mid = true) /\
  (forall pre v post,
     tr = pre ++ ev_store_running v :: post ->
     v = 0 /\ (count_ev is_write post <= 1)%nat) /\
  let d := deliver (sig_before it) g in
  while_running (it :: rest) buf ra g =
    ((Stopped, ra), final d, trace d ++ [ev_load_running 0]) /\
  none_ev is_write (trace d ++ [ev_load_running 0]) = true.
Proof.
  cbn zeta. destruct (main_flag_run w argv) as [s Hs].
  split; [exists s; exact Hs|].
  split. { intros pre post Htr. rewrite Htr in Hs.
           apply (no_write_after_stop_read _ _ _ _ Hs). }
  split. { intros pre e post Htr He. rewrite Htr in Hs.
           apply (write_is_licensed _ _ _ _ _ Hs He). }
  split. { intros pre v post Htr. rewrite Htr in Hs.
           apply (store_clears_flag _ _ _ _ _ Hs). }
  assert (Hclear : running (final (deliver (sig_before it) g)) = 0).
  { rewrite deliver_running. destruct Hflag as [H0|Hsig].
    - destruct (sig_before it); [exact H0|reflexivity].
    - destruct (sig_before it); [contradiction|reflexivity]. }
  split.
  - open_loop it rest buf ra g; [|contradiction..].
    rewrite Hclear. reflexivity.
  - rewrite none_ev_app. apply andb_true_intro. split; [|reflexivity].
    apply deliver_none. handler_kind.
Qed.

Lemma C5_flag_checked_before_every_write_witness :
  let tr := trace (main (good_world [it_full; it_stop; it_full])
                        ["play_silence"] initial_globals) in
  let d := deliver (sig_before it_stop) an_open_handle in
  (running an_open_handle = 0 \/ sig_before it_stop <> []) /\
  (exists s, flag_run (running initial_globals, false) tr = Some s) /\
  (forall pre post,
     tr = pre ++ ev_load_running 0 :: post -> none_ev is_write post = true) /\
  (forall pre e post,
     tr = pre ++ e :: post -> is_write e = true ->
     exists pre' v mid,
       pre = pre' ++ ev_load_running v :: mid /\ v <> 0 /\
       none_ev is_write mid = true /\ none_ev is_load mid = true) /\
  (forall pre v post,
     tr = pre ++ ev_store_running v :: post ->
     v = 0 /\ (count_ev is_write post <= 1)%nat) /\
  while_running (it_stop :: [it_full]) zero_buffer 2 an_open_handle =
    ((Stopped, 2), final d, trace d ++ [ev_load_running 0]) /\
  none_ev is_write (trace d ++ [ev_load_running 0]) = true.
Proof.
  cbn zeta. split; [right; discriminate|].
  apply (C5_flag_checked_before_every_write
           (good_world [it_full; it_stop; it_full]) ["play_silence"]
           it_stop [it_full] zero_buffer 2 an_open_handle).
  right; discriminate.
Defined.

(** ** The life of the silence buffer *)

Lemma zero_buffer_zero : Forall (fun x => x = 0) zero_buffer.
Proof.
  unfold zero_buffer. apply Forall_forall. intros x Hx.
  apply repeat_spec in Hx. exact Hx.
Qed.

Lemma zero_buffer_length : List.length zero_buffer = 2048%nat.
Proof. unfold zero_buffer. rewrite repeat_length. reflexivity. Qed.

Lemma zero_buffer_check : forallb (Z.eqb 0) zero_buffer = true.
Proof.
  apply forallb_forall. intros x Hx.
  apply repeat_spec in Hx. subst x. reflexivity.
Qed.

Lemma buffer_run_app (s : buffer_state) (t1 t2 : list event) :
  buffer_run s (t1 ++ t2) =
  match buffer_run s t1 with
  | Some s' => buffer_run s' t2
  | None => None
  end.
Proof.
  revert s; induction t1 as [|e t1 IH]; intros s; [reflexivity|].
  cbn. destruct (buffer_step s e); [apply IH | reflexivity].
Qed.

Lemma buffer_run_neutral (s : buffer_state) (tr : list event) :
  forallb buffer_neutral tr = true -> buffer_run s tr = Some s.
Proof.
  revert s; induction tr as [|e tr IH]; intros s H; [reflexivity|].
  cbn in H. apply andb_true_iff in H as [He Htr].
  cbn. destruct e; try discriminate He; cbn; apply IH; exact Htr.
Qed.

Lemma buffer_run_loop_events (h : option snd_pcm_t) (tr : list event) :
  Forall (loop_event h zero_buffer) tr -> buffer_run Live tr = Some Live.
Proof.
  induction 1 as [|e tr He Htr IH]; [reflexivity|].
  cbn [buffer_run]. destruct e; cbn [loop_event] in He; try contradiction;
    cbn [buffer_step]; try exact IH.
  destruct He as (_ & -> & _). rewrite zero_buffer_check. exact IH.
Qed.

Lemma buffer_run_callocs (s s' : buffer_state) (tr : list event) :
  buffer_run s tr = Some s' ->
  (count_ev is_calloc tr <= match s with Unallocated => 1 | _ => 0 end)%nat.
Proof.
  revert s. induction tr as [|e tr IH]; intros s H.
  - cbn. destruct s; lia.
  - cbn in H. destruct e; cbn in H; try (exact (IH s H)).
    + destruct s; try discriminate H.
      specialize (IH _ H).
      change (count_ev is_calloc (ev_calloc nmemb size ok :: tr))
        with (S (count_ev is_calloc tr)).
      destruct ok; cbn in IH; lia.
    + destruct s; try discriminate H.
      destruct (forallb (Z.eqb 0) buf); [|discriminate H].
      exact (IH Live H).
    + destruct s; try discriminate H. specialize (IH Gone H). cbn in IH.
      change (count_ev is_calloc (ev_free :: tr)) with (count_ev is_calloc tr).
      lia.
Qed.

Lemma no_write_silence (tr : list event) :
  none_ev is_write tr = true -> Forall write_of_silence tr.
Proof.
  unfold none_ev. induction tr as [|e tr IH]; cbn; intros H; constructor.
  - apply andb_true_iff in H as [He _]. destruct e; try exact I. discriminate He.
  - apply IH. apply andb_true_iff in H as [_ Htr]. exact Htr.
Qed.

Lemma loop_writes_silence (w : world) (dev : string) :
  Forall write_of_silence (trace (the_loop w dev)).
Proof.
  eapply Forall_impl; [|apply while_running_events].
  intros e He. destruct e; cbn in He |- *; try exact I.
  destruct He as (_ & Hbuf & Hn). split; assumption.
Qed.

Lemma buffer_run_signals (s : buffer_state) (w : world) :
  buffer_run s (trace (after_signals w)) = Some s.
Proof.
  apply buffer_run_neutral.
  apply (forallb_weaken is_handler_event); [handler_kind|].
  apply deliver_handler_events.
Qed.

Lemma buffer_run_init (s : buffer_state) (w : world) (dev : string) :
  buffer_run s (trace (after_init w dev)) = Some s.
Proof.
  apply buffer_run_neutral.
  apply (forallb_weaken is_init_event); [init_kind|].
  apply init_alsa_run.
Qed.

Lemma buffer_run_the_loop (w : world) (dev : string) :
  buffer_run Live (trace (the_loop w dev)) = Some Live.
Proof. eapply buffer_run_loop_events. apply while_running_events. Qed.

(** Every run of [main] respects the buffer discipline. *)
Lemma main_buffer_run (w : world) (argv : list string) :
  exists s, buffer_run Unallocated (trace (main w argv initial_globals)) = Some s.
Proof.
  destruct (main_path_total w argv)
    as [r Hdev Hv Hf Ht | dev Hdev Hneg | dev Hdev Hpos Hval
       | dev Hdev Hpos Hval Hc | dev Hdev Hpos Hval Hc Hst
       | dev Hdev Hpos Hval Hc Hst];
    rewrite ?trace_mk.
  - eexists. apply buffer_run_neutral.
    apply (forallb_weaken is_print); [init_kind | exact Ht].
  - eexists. rewrite buffer_run_app. rewrite (buffer_run_neutral _ banner) by reflexivity.
    rewrite buffer_run_app, buffer_run_signals.
    apply buffer_run_neutral. reflexivity.
  - eexists. rewrite buffer_run_app. rewrite (buffer_run_neutral _ banner) by reflexivity.
    rewrite buffer_run_app, buffer_run_signals.
    rewrite buffer_run_app, buffer_run_init.
    apply buffer_run_neutral. reflexivity.
  - eexists. rewrite buffer_run_app. rewrite (buffer_run_neutral _ banner) by reflexivity.
    rewrite buffer_run_app, buffer_run_signals.
    rewrite buffer_run_app, buffer_run_init.
    reflexivity.
  - eexists. rewrite buffer_run_app. rewrite (buffer_run_neutral _ banner) by reflexivity.
    rewrite buffer_run_app, buffer_run_signals.
    rewrite buffer_run_app, buffer_run_init.
    rewrite buffer_run_app.
    change (buffer_run Unallocated loop_entry) with (Some Live).
    apply buffer_run_the_loop.
  - eexists. rewrite buffer_run_app. rewrite (buffer_run_neutral _ banner) by reflexivity.
    rewrite buffer_run_app, buffer_run_signals.
    rewrite buffer_run_app, buffer_run_init.
    rewrite buffer_run_app, buffer_run_app.
    change (buffer_run Unallocated loop_entry) with (Some Live). cbv beta iota.
    rewrite buffer_run_app, buffer_run_the_loop.
    reflexivity.
Qed.

Ltac silence_parts :=
  repeat match goal with
         | |- Forall _ (_ ++ _) => apply Forall_app; split
         end;
  first [ apply loop_writes_silence | apply no_write_silence; no_events ].

(** Every write in a run of [main] passes the all-zero buffer. *)
Lemma main_writes_silence (w : world) (argv : list string) :
  Forall write_of_silence (trace (main w argv initial_globals)).
Proof.
  destruct (main_path_total w argv)
    as [r Hdev Hv Hf Ht | dev Hdev Hneg | dev Hdev Hpos Hval
       | dev Hdev Hpos Hval Hc | dev Hdev Hpos Hval Hc Hst
       | dev Hdev Hpos Hval Hc Hst];
    rewrite ?trace_mk.
  - apply no_write_silence. apply (forallb_none is_print); [init_kind | exact Ht].
  - apply no_write_silence. split_parts;
      [reflexivity | apply signals_none; handler_kind | reflexivity].
  - apply no_write_silence. no_events.
  - apply no_write_silence. no_events.
  - silence_parts.
  - silence_parts.
Qed.

(** An event of a kind does not occur in a trace that holds none. *)
Lemma none_ev_split (p : event -> bool) (l1 l2 : list event) (e : event) :
  none_ev p (l1 ++ e :: l2) = true ->
  none_ev p l1 = true /\ p e = false /\ none_ev p l2 = true.
Proof.
  rewrite none_ev_app. unfold none_ev at 2. cbn [forallb].
  intros H. apply andb_true_iff in H as [H1 H]. apply andb_true_iff in H as [He H2].
  apply negb_true_iff in He. auto.
Qed.

(** In a trace made of three parts of which the outer two hold no event
    of some kind, an event of that kind lies in the middle part. *)
Lemma locate_event (p : event -> bool) (A L B pre post : list event) (e : event) :
  none_ev p A = true ->
  none_ev p B = true ->
  p e = true ->
  A ++ L ++ B = pre ++ e :: post ->
  exists l1 l2, L = l1 ++ e :: l2 /\ pre = A ++ l1 /\ post = l2 ++ B.
Proof.
  intros HA HB He. revert pre. induction A as [|a A IHA]; intros pre Heq.
  - clear HA. cbn [app] in Heq. revert pre Heq.
    induction L as [|x L IHL]; intros pre Heq.
    + cbn [app] in Heq. rewrite Heq in HB.
      apply none_ev_split in HB as (_ & Hne & _). congruence.
    + destruct pre as [|y pre]; cbn [app] in Heq.
      * injection Heq as -> <-. exists [], L. auto.
      * injection Heq as -> Heq.
        destruct (IHL pre Heq) as (l1 & l2 & -> & -> & ->).
        exists (y :: l1), l2. auto.
  - unfold none_ev in HA. cbn [forallb] in HA.
    apply andb_true_iff in HA as [Ha HA]. apply negb_true_iff in Ha.
    destruct pre as [|y pre]; cbn [app] in Heq.
    + injection Heq as -> _. congruence.
    + injection Heq as -> Heq.
      destruct (IHA HA pre Heq) as (l1 & l2 & -> & -> & ->).
      exists l1, l2. auto.
Qed.

(** When the part of a run before its loop holds one allocation, a
    successful one, and no [free], and the loop allocates and frees
    nothing, then every step of the loop finds the buffer allocated
    once and still there, and no allocation follows it. *)
Lemma loop_step_finds_buffer (A L B pre post : list event) (e : event) :
  count_ev is_calloc A = 1%nat ->
  count_ev is_calloc_ok A = 1%nat ->
  none_ev is_free A = true ->
  none_ev is_loop_step A = true ->
  none_ev is_calloc L = true ->
  none_ev is_free L = true ->
  none_ev is_loop_step B = true ->
  none_ev is_calloc B = true ->
  is_loop_step e = true ->
  A ++ L ++ B = pre ++ e :: post ->
  count_ev is_calloc pre = 1%nat /\
  count_ev is_calloc_ok pre = 1%nat /\
  none_ev is_free pre = true /\
  none_ev is_calloc (e :: post) = true.
Proof.
  intros HA1 HA2 HAf HAs HLc HLf HBs HBc He Heq.
  destruct (locate_event is_loop_step A L B pre post e HAs HBs He Heq)
    as (l1 & l2 & -> & -> & ->).
  apply none_ev_split in HLc as (Hc1 & Hce & Hc2).
  apply none_ev_split in HLf as (Hf1 & _ & _).
  assert (Hok1 : none_ev is_calloc_ok l1 = true).
  { unfold none_ev in *. apply forallb_forall. intros x Hx.
    rewrite forallb_forall in Hc1. specialize (Hc1 x Hx).
    destruct x; try reflexivity. discriminate Hc1. }
  split; [rewrite count_ev_app, HA1, (none_ev_count _ _ Hc1); reflexivity|].
  split; [rewrite count_ev_app, HA2, (none_ev_count _ _ Hok1); reflexivity|].
  split; [rewrite none_ev_app, HAf, Hf1; reflexivity|].
  change (e :: l2 ++ B) with ([e] ++ l2 ++ B).
  rewrite !none_ev_app, Hc2, HBc. unfold none_ev. cbn [forallb].
  rewrite Hce. reflexivity.
Qed.

(** Every step of the loop in a run of [main] finds the buffer
    allocated once, successfully, and not freed. *)
Lemma main_loop_steps_find_buffer (w : world) (argv : list string)
    (pre post : list event) (e : event) :
  trace (main w argv initial_globals) = pre ++ e :: post ->
  is_loop_step e = true ->
  count_ev is_calloc pre = 1%nat /\
  count_ev is_calloc_ok pre = 1%nat /\
  none_ev is_free pre = true /\
  none_ev is_calloc (e :: post) = true.
Proof.
  intros Htr He.
  assert (Hnot : none_ev is_loop_step (pre ++ e :: post) = true -> False).
  { intros H. apply none_ev_split in H as (_ & Hne & _). congruence. }
  assert (Hentry : forall dev,
    count_ev is_calloc
      (banner ++ trace (after_signals w) ++ trace (after_init w dev) ++ loop_entry)
      = 1%nat /\
    count_ev is_calloc_ok
      (banner ++ trace (after_signals w) ++ trace (after_init w dev) ++ loop_entry)
      = 1%nat /\
    none_ev is_free
      (banner ++ trace (after_signals w) ++ trace (after_init w dev) ++ loop_entry)
      = true /\
    none_ev is_loop_step
      (banner ++ trace (after_signals w) ++ trace (after_init w dev) ++ loop_entry)
      = true).
  { intros dev. split; [|split; [|split]].
    - rewrite !count_ev_app.
      rewrite (none_ev_count is_calloc (trace (after_signals w)))
        by (apply signals_none; handler_kind).
      rewrite (none_ev_count is_calloc (trace (after_init w dev)))
        by (apply init_none; init_kind).
      reflexivity.
    - rewrite !count_ev_app.
      rewrite (none_ev_count is_calloc_ok (trace (after_signals w)))
        by (apply signals_none; handler_kind).
      rewrite (none_ev_count is_calloc_ok (trace (after_init w dev)))
        by (apply init_none; init_kind).
      reflexivity.
    - no_events.
    - no_events. }
  destruct (main_path_total w argv)
    as [r Hdev Hv Hf Ht | dev Hdev Hneg | dev Hdev Hpos Hval
       | dev Hdev Hpos Hval Hc | dev Hdev Hpos Hval Hc Hst
       | dev Hdev Hpos Hval Hc Hst];
    rewrite ?trace_mk in Htr.
  - exfalso. apply Hnot. rewrite <- Htr.
    apply (forallb_none is_print); [init_kind | exact Ht].
  - exfalso. apply Hnot. rewrite <- Htr.
    split_parts; [reflexivity | apply signals_none; handler_kind | reflexivity].
  - exfalso. apply Hnot. rewrite <- Htr. no_events.
  - exfalso. apply Hnot. rewrite <- Htr. no_events.
  - destruct (Hentry dev) as (H1 & H2 & H3 & H4).
    apply (loop_step_finds_buffer
             (banner ++ trace (after_signals w) ++ trace (after_init w dev)
              ++ loop_entry)
             (trace (the_loop w dev)) [] pre post e H1 H2 H3 H4);
      try reflexivity; try exact He;
      try (apply loop_none; loop_kind).
    rewrite <- Htr, app_nil_r, <- !app_assoc. reflexivity.
  - destruct (Hentry dev) as (H1 & H2 & H3 & H4).
    apply (loop_step_finds_buffer
             (banner ++ trace (after_signals w) ++ trace (after_init w dev)
              ++ loop_entry)
             (trace (the_loop w dev))
             (loop_exit ++ release (open_handle w) ++ goodbye)
             pre post e H1 H2 H3 H4);
      try reflexivity; try exact He;
      try (apply loop_none; loop_kind).
    rewrite <- Htr, <- !app_assoc. reflexivity.
Qed.

(** [play_silence_loop] with a successful [calloc]: the allocation, the
    announcement, the loop on the allocated buffer, and after the loop
    (if it has ended) the [free] and the closing message.  The loop
    itself allocates nothing and frees nothing. *)
Lemma play_silence_loop_allocates_first (w : world) (g : globals) :
  calloc_ok w = true ->
  exists tail,
    trace (play_silence_loop w g) =
      ev_calloc (buffer_frames * 2) sizeof_short true
      :: ev_print stdout "Playing silence... Press Ctrl+C to stop.\n" []
      :: trace (while_running (iterations w) zero_buffer 0 g) ++ tail /\
    (tail = [] \/ tail = loop_exit) /\
    none_ev is_calloc (trace (while_running (iterations w) zero_buffer 0 g)) = true /\
    none_ev is_free (trace (while_running (iterations w) zero_buffer 0 g)) = true.
Proof.
  intros Hc. rewrite play_silence_loop_run. cbn zeta. rewrite Hc.
  assert (Hnone : forall p,
            (forall h buf e, loop_event h buf e -> p e = false) ->
            none_ev p (trace (while_running (iterations w) zero_buffer 0 g)) = true).
  { intros p Hp. eapply Forall_none; [apply Hp|]. apply while_running_events. }
  destruct (fst (value (while_running (iterations w) zero_buffer 0 g)));
    rewrite trace_mk.
  - exists []. rewrite app_nil_r. split; [reflexivity|]. split; [left; reflexivity|].
    split; apply Hnone; loop_kind.
  - exists loop_exit. split; [reflexivity|]. split; [right; reflexivity|].
    split; apply Hnone; loop_kind.
  - exists loop_exit. split; [reflexivity|]. split; [right; reflexivity|].
    split; apply Hnone; loop_kind.
Qed.

(** Once the device is configured, a run of [main] holds the run of
    [play_silence_loop] and calls [calloc] exactly once. *)
Lemma main_allocates_once (w : world) (argv : list string) (dev : string) :
  chosen_device argv = Some dev ->
  0 <= open_ret w dev ->
  (forall c, 0 <= hw_ret w c) ->
  count_ev is_calloc (trace (main w argv initial_globals)) = 1%nat /\
  exists post,
    trace (main w argv initial_globals) =
      banner ++ trace (after_signals w) ++ trace (after_init w dev)
      ++ trace (play_silence_loop w (final (after_init w dev))) ++ post /\
    none_ev is_loop_step post = true /\
    none_ev is_calloc post = true.
Proof.
  intros Hdev Hopen Hhw.
  pose proof (after_init_ok w dev Hopen Hhw) as Hinit.
  assert (Hloop : count_ev is_calloc
                    (trace (play_silence_loop w (final (after_init w dev)))) = 1%nat).
  { rewrite play_silence_loop_run. cbn zeta. fold (the_loop w dev).
    destruct (calloc_ok w); [|reflexivity].
    destruct (fst (value (the_loop w dev))); rewrite trace_mk;
      rewrite !count_ev_app;
      rewrite (none_ev_count is_calloc (trace (the_loop w dev)))
        by (apply loop_none; loop_kind);
      reflexivity. }
  assert (Hshape : exists post,
    trace (main w argv initial_globals) =
      banner ++ trace (after_signals w) ++ trace (after_init w dev)
      ++ trace (play_silence_loop w (final (after_init w dev))) ++ post /\
    none_ev is_loop_step post = true /\
    none_ev is_calloc post = true).
  { pose proof (main_device_run w argv dev Hdev) as Hmain. cbn zeta in Hmain.
    fold (after_signals w) in Hmain. fold (after_init w dev) in Hmain.
    rewrite Hmain, Hinit. change (0 <? 0) with false. cbv iota.
    destruct (value (play_silence_loop w (final (after_init w dev)))).
    - rewrite trace_mk. eexists. split; [reflexivity|].
      rewrite cleanup_alsa_run.
      destruct (pcm_handle (final (play_silence_loop w (final (after_init w dev)))));
        split; reflexivity.
    - rewrite trace_mk. exists []. rewrite app_nil_r. repeat split. }
  split; [|exact Hshape].
  destruct Hshape as (post & -> & _ & Hpc).
  rewrite !count_ev_app, Hloop.
  rewrite (none_ev_count is_calloc (trace (after_signals w)))
    by (apply signals_none; handler_kind).
  rewrite (none_ev_count is_calloc (trace (after_init w dev)))
    by (apply init_none; init_kind).
  rewrite (none_ev_count is_calloc post Hpc). reflexivity.
Qed.

(** C6.  The buffer the program allocates holds 2048 samples, all zero.
    In every run of [main] the buffer is handled by the discipline of
    [buffer_run]: it is allocated at most once and before any write, it
    is live (allocated, not freed) at every write, and the samples a
    write passes are all zero; indeed every write passes
    [buffer_frames] frames of that same all-zero buffer.

    The allocation is made exactly once and before the loop starts.
    At every evaluation of the loop condition and at every write, the
    run so far holds exactly one [calloc], which succeeded, and no
    [free], and no [calloc] follows.  Whenever the device has been
    opened and configured, the run of [main] holds the run of
    [play_silence_loop] and calls [calloc] exactly once.  And
    [play_silence_loop] itself, when the allocation succeeds, begins
    with the [calloc] of [buffer_frames * 2] samples, then runs the loop
    on that buffer, and the loop neither allocates nor frees. *)
Theorem C6_silence_buffer_all_zero (w : world) (argv : list string) :
  let tr := trace (main w argv initial_globals) in
  Forall (fun x => x = 0) zero_buffer /\
  List.length zero_buffer = 2048%nat /\
  (exists s, buffer_run Unallocated tr = Some s) /\
  (count_ev is_calloc tr <= 1)%nat /\
  Forall write_of_silence tr /\
  (forall pre e post,
     tr = pre ++ e :: post ->
     is_loop_step e = true ->
     count_ev is_calloc pre = 1%nat /\
     count_ev is_calloc_ok pre = 1%nat /\
     none_ev is_free pre = true /\
     none_ev is_calloc (e :: post) = true) /\
  (forall dev,
     chosen_device argv = Some dev ->
     0 <= open_ret w dev ->
     (forall c, 0 <= hw_ret w c) ->
     count_ev is_calloc tr = 1%nat /\
     exists post,
       tr = banner ++ trace (after_signals w) ++ trace (after_init w dev)
            ++ trace (play_silence_loop w (final (after_init w dev))) ++ post /\
       none_ev is_loop_step post = true /\
       none_ev is_calloc post = true) /\
  (forall g,
     calloc_ok w = true ->
     exists tail,
       trace (play_silence_loop w g) =
         ev_calloc (buffer_frames * 2) sizeof_short true
         :: ev_print stdout "Playing silence... Press Ctrl+C to stop.\n" []
         :: trace (while_running (iterations w) zero_buffer 0 g) ++ tail /\
       (tail = [] \/ tail = loop_exit) /\
       none_ev is_calloc (trace (while_running (iterations w) zero_buffer 0 g)) = true /\
       none_ev is_free (trace (while_running (iterations w) zero_buffer 0 g)) = true).
Proof.
  cbn zeta. destruct (main_buffer_run w argv) as [s Hs].
  split; [apply zero_buffer_zero|].
  split; [apply zero_buffer_length|].
  split; [exists s; exact Hs|].
  split; [apply (buffer_run_callocs _ _ _ Hs)|].
  split; [apply main_writes_silence|].
  split; [intros pre e post; apply main_loop_steps_find_buffer|].
  split; [intros dev; apply main_allocates_once|].
  intros g. apply play_silence_loop_allocates_first.
Qed.

Lemma C6_silence_buffer_all_zero_witness :
  let w := good_world [it_full; it_stop] in
  let argv := ["play_silence"] in
  let tr := trace (main w argv initial_globals) in
  chosen_device argv = Some "default" /\
  0 <= open_ret w "default" /\
  (forall c, 0 <= hw_ret w c) /\
  calloc_ok w = true /\
  Forall (fun x => x = 0) zero_buffer /\
  List.length zero_buffer = 2048%nat /\
  (exists s, buffer_run Unallocated tr = Some s) /\
  (count_ev is_calloc tr <= 1)%nat /\
  Forall write_of_silence tr /\
  (forall pre e post,
     tr = pre ++ e :: post ->
     is_loop_step e = true ->
     count_ev is_calloc pre = 1%nat /\
     count_ev is_calloc_ok pre = 1%nat /\
     none_ev is_free pre = true /\
     none_ev is_calloc (e :: post) = true) /\
  (forall dev,
     chosen_device argv = Some dev ->
     0 <= open_ret w dev ->
     (forall c, 0 <= hw_ret w c) ->
     count_ev is_calloc tr = 1%nat /\
     exists post,
       tr = banner ++ trace (after_signals w) ++ trace (after_init w dev)
            ++ trace (play_silence_loop w (final (after_init w dev))) ++ post /\
       none_ev is_loop_step post = true /\
       none_ev is_calloc post = true) /\
  (forall g,
     calloc_ok w = true ->
     exists tail,
       trace (play_silence_loop w g) =
         ev_calloc (buffer_frames * 2) sizeof_short true
         :: ev_print stdout "Playing silence... Press Ctrl+C to stop.\n" []
         :: trace (while_running (iterations w) zero_buffer 0 g) ++ tail /\
       (tail = [] \/ tail = loop_exit) /\
       none_ev is_calloc (trace (while_running (iterations w) zero_buffer 0 g)) = true /\
       none_ev is_free (trace (while_running (iterations w) zero_buffer 0 g)) = true).
Proof.
  cbn zeta. split; [reflexivity|]. split; [cbn; lia|].
  split; [intros c; cbn; lia|]. split; [reflexivity|].
  exact (C6_silence_buffer_all_zero (good_world [it_full; it_stop]) ["play_silence"]).
Defined.

(** * Further properties of the program *)

(** ** Command line *)

(** X1.  With more than one argument after the program name, [main]
    prints the thirteen lines of the usage text on standard output and
    returns 1; it installs no signal handler, opens no device and
    leaves the globals as they were, whatever the arguments are (a help
    flag among them changes nothing). *)
Theorem X1_too_many_arguments (w : world) (argv : list string)
    (Hmany : (2 < List.length argv)%nat) :
  let r := main w argv initial_globals in
  value r = Returned 1 /\
  final r = initial_globals /\
  trace r = trace (print_usage (List.nth 0 argv "") initial_globals) /\
  forallb is_stdout_print (trace r) = true /\
  List.length (trace r) = 13%nat.
Proof.
  cbn zeta. unfold main. cbn zeta.
  replace (Z.of_nat (List.length argv) >? 2) with true
    by (symmetry; rewrite Z.gtb_ltb; apply Z.ltb_lt; lia).
  vm_compute. repeat split.
Qed.

Lemma X1_too_many_arguments_witness :
  let argv := ["play_silence"; "hw:0,0"; "--help"] in
  let r := main no_device_world argv initial_globals in
  (2 < List.length argv)%nat /\
  value r = Returned 1 /\
  final r = initial_globals /\
  trace r = trace (print_usage (List.nth 0 argv "") initial_globals) /\
  forallb is_stdout_print (trace r) = true /\
  List.length (trace r) = 13%nat.
Proof.
  cbn zeta. split; [cbn; lia|].
  apply (X1_too_many_arguments no_device_world
           ["play_silence"; "hw:0,0"; "--help"]).
  cbn; lia.
Defined.

(** X2.  With exactly one argument that is [-h] or [--help], [main]
    prints the usage text and returns 0, and does nothing else. *)
Theorem X2_help_flag (w : world) (prog flag : string)
    (Hflag : flag = "-h" \/ flag = "--help") :
  main w [prog; flag] initial_globals =
  (Returned 0, initial_globals, trace (print_usage prog initial_globals)).
Proof.
  destruct Hflag as [-> | ->]; vm_compute; reflexivity.
Qed.

Lemma X2_help_flag_witness :
  ("--help" = "-h" \/ "--help" = "--help") /\
  main no_device_world ["play_silence"; "--help"] initial_globals =
  (Returned 0, initial_globals, trace (print_usage "play_silence" initial_globals)).
Proof.
  split; [right; reflexivity|].
  apply (X2_help_flag no_device_world "play_silence" "--help").
  right; reflexivity.
Defined.

(** ** Device configuration *)

(** [init_alsa] once the open has succeeded: the configuration calls
    are made in the order of [hw_stages] up to the first that fails. *)
Lemma init_alsa_exact (w : world) (dev : string) (g : globals) :
  0 <= open_ret w dev ->
  init_alsa w dev g =
  (match first_failure w with Some _ => -1 | None => 0 end,
   opened w g,
   ev_open dev (open_ret w dev)
   :: match first_failure w with
      | Some c =>
          hw_events w (stages_upto c)
          ++ [ev_print stderr (hw_error c) [arg_err (hw_ret w c)]]
      | None => hw_events w hw_stages ++ init_report dev (rate_near w)
      end).
Proof.
  intros Hopen.
  unfold init_alsa, snd_pcm_open, snd_pcm_hw, fprintf, printf, emit, ret,
    get_pcm_handle, set_pcm_handle, bind, first_failure, opened.
  cbn [hw_stages find].
  cbn [pcm_handle running app].
  split_tests; solve [reflexivity | lia].
Qed.

Lemma first_failure_found (w : world) (c : hw_call) :
  hw_ret w c < 0 ->
  (forall c', (stage_index c' < stage_index c)%nat -> 0 <= hw_ret w c') ->
  first_failure w = Some c.
Proof.
  intros Hc Hbefore. unfold first_failure. cbn [hw_stages find].
  assert (Hskip : forall c', (stage_index c' < stage_index c)%nat ->
                             (hw_ret w c' <? 0) = false).
  { intros c' Hlt. apply Z.ltb_ge. apply Hbefore. exact Hlt. }
  assert (Hhit : (hw_ret w c <? 0) = true) by (apply Z.ltb_lt; exact Hc).
  destruct c; cbn in Hskip;
    repeat (rewrite Hskip by (cbn; lia)); rewrite Hhit; reflexivity.
Qed.

Lemma first_failure_none (w : world) :
  first_failure w = None <-> forall c, 0 <= hw_ret w c.
Proof.
  unfold first_failure. cbn [hw_stages find]. split.
  - intros Hnone c. revert Hnone. split_tests; intros Hnone;
      try discriminate Hnone.
    destruct c; assumption.
  - intros H.
    repeat match goal with
           | |- context [hw_ret w ?c <? 0] =>
               destruct (Z.ltb_spec (hw_ret w c) 0); [specialize (H c); lia|]
           end.
    reflexivity.
Qed.

(** X3.  When the device opens and a configuration call fails while
    all the calls before it (in the order of the source) succeed,
    [init_alsa] has made the calls up to that one and no later one,
    prints the message of that stage with the error code, and returns
    -1 with the handle still stored in [pcm_handle].  No two stages
    share a message. *)
Theorem X3_configuration_stops_at_first_failure
    (w : world) (dev : string) (g : globals) (c : hw_call)
    (Hopen : 0 <= open_ret w dev)
    (Hfail : hw_ret w c < 0)
    (Hbefore : forall c', (stage_index c' < stage_index c)%nat -> 0 <= hw_ret w c') :
  init_alsa w dev g =
    (-1, opened w g,
     ev_open dev (open_ret w dev)
     :: hw_events w (stages_upto c)
     ++ [ev_print stderr (hw_error c) [arg_err (hw_ret w c)]]) /\
  (forall c', hw_error c' = hw_error c -> c' = c).
Proof.
  split.
  - rewrite (init_alsa_exact w dev g Hopen).
    rewrite (first_failure_found w c Hfail Hbefore). reflexivity.
  - intros c' H. destruct c, c'; solve [reflexivity | discriminate H].
Qed.

Lemma X3_configuration_stops_at_first_failure_witness :
  let w := no_format_world in
  0 <= open_ret w "default" /\
  hw_ret w hw_set_format < 0 /\
  (forall c', (stage_index c' < stage_index hw_set_format)%nat -> 0 <= hw_ret w c') /\
  init_alsa w "default" initial_globals =
    (-1, opened w initial_globals,
     ev_open "default" (open_ret w "default")
     :: hw_events w (stages_upto hw_set_format)
     ++ [ev_print stderr (hw_error hw_set_format)
                  [arg_err (hw_ret w hw_set_format)]]) /\
  (forall c', hw_error c' = hw_error hw_set_format -> c' = hw_set_format).
Proof.
  cbn zeta.
  split; [cbn; lia|]. split; [cbn; lia|].
  split; [intros c' H; destruct c'; cbn in H |- *; lia|].
  apply (X3_configuration_stops_at_first_failure no_format_world "default"
           initial_globals hw_set_format);
    [cbn; lia | cbn; lia | intros c' H; destruct c'; cbn in H |- *; lia].
Defined.

(** X4.  [init_alsa] returns 0 or -1, and 0 exactly when the open and
    all six configuration calls succeed; the rate the device grants
    plays no part in that.  On success it has made the six calls in
    order on the opened handle, with interleaved access, the S16_LE
    format, 2 channels and a requested rate of 44100, and reports the
    rate that was granted. *)
Theorem X4_init_alsa_result (w : world) (dev : string) (g : globals) :
  let r := init_alsa w dev g in
  (value r = 0 \/ value r = -1) /\
  (value r = 0 <-> 0 <= open_ret w dev /\ forall c, 0 <= hw_ret w c) /\
  (value r = 0 ->
   trace r = ev_open dev (open_ret w dev)
             :: hw_events w hw_stages ++ init_report dev (rate_near w)) /\
  hw_events w hw_stages =
    [ev_hw hw_params_any (Some (open_handle w)) 0 (hw_ret w hw_params_any);
     ev_hw hw_set_access (Some (open_handle w)) SND_PCM_ACCESS_RW_INTERLEAVED
           (hw_ret w hw_set_access);
     ev_hw hw_set_format (Some (open_handle w)) SND_PCM_FORMAT_S16_LE
           (hw_ret w hw_set_format);
     ev_hw hw_set_channels (Some (open_handle w)) 2 (hw_ret w hw_set_channels);
     ev_hw hw_set_rate_near (Some (open_handle w)) 44100 (hw_ret w hw_set_rate_near);
     ev_hw hw_commit (Some (open_handle w)) 0 (hw_ret w hw_commit)].
Proof.
  cbn zeta.
  pose proof (init_alsa_run w dev g) as (_ & _ & Hval & Hfail & Hok).
  split; [exact Hval|].
  assert (Hiff : value (init_alsa w dev g) = 0 <->
                 0 <= open_ret w dev /\ forall c, 0 <= hw_ret w c).
  { destruct (Z.lt_ge_cases (open_ret w dev) 0) as [Hneg|Hpos].
    - rewrite (Hfail Hneg), value_mk. split; [discriminate | lia].
    - destruct (Hok Hpos) as [_ Hall]. rewrite Hall. tauto. }
  split; [exact Hiff|]. split; [|reflexivity].
  intros H0. apply Hiff in H0 as [Hpos Hall].
  rewrite (init_alsa_exact w dev g Hpos).
  apply first_failure_none in Hall. rewrite Hall. reflexivity.
Qed.

(** ** Which device, and which exit code *)

Lemma chosen_device_default (argv : list string) :
  (List.length argv <= 1)%nat -> chosen_device argv = Some "default".
Proof.
  intros H. destruct argv as [|prog [|d rest]]; [reflexivity | reflexivity |].
  cbn in H. lia.
Qed.

Lemma chosen_device_named (prog dev : string) :
  dev <> "-h" -> dev <> "--help" -> chosen_device [prog; dev] = Some dev.
Proof.
  intros H1 H2. unfold chosen_device, strcmp_eq0. cbn.
  apply String.eqb_neq in H1, H2. rewrite H1, H2. reflexivity.
Qed.

Lemma chosen_device_length (argv : list string) (dev : string) :
  chosen_device argv = Some dev -> (List.length argv <= 2)%nat.
Proof.
  unfold chosen_device. cbn zeta.
  destruct (Z.gtb_spec (Z.of_nat (List.length argv)) 2); [discriminate|].
  intros _. lia.
Qed.

(** [init_alsa] begins with the open and makes no other. *)
Lemma after_init_opens_once (w : world) (dev : string) :
  exists tail,
    trace (after_init w dev) = ev_open dev (open_ret w dev) :: tail /\
    none_ev is_open tail = true.
Proof.
  unfold after_init.
  destruct (Z.lt_ge_cases (open_ret w dev) 0) as [Hneg|Hpos].
  - pose proof (init_alsa_run w dev (final (after_signals w)))
      as (_ & _ & _ & Hfail & _).
    rewrite (Hfail Hneg), trace_mk. eexists. split; reflexivity.
  - rewrite (init_alsa_exact w dev _ Hpos), trace_mk. eexists.
    split; [reflexivity|].
    destruct (first_failure w) as [c|]; [destruct c|]; reflexivity.
Qed.

(** X5.  Without arguments [main] opens the device named [default], and
    with one argument that is not a help flag it opens the device of
    that name.  The open comes right after the banner and the
    installation of the signal handlers (and the handling of signals
    that arrive at once), before any other library call, and no run
    opens a device twice. *)
Theorem X5_device_opened_first
    (w : world) (argv : list string) (dev : string)
    (Hargs : ((List.length argv <= 1)%nat /\ dev = "default") \/
             (exists prog, argv = [prog; dev] /\ dev <> "-h" /\ dev <> "--help")) :
  exists post,
    trace (main w argv initial_globals) =
      banner ++ trace (after_signals w) ++ ev_open dev (open_ret w dev) :: post /\
    none_ev is_open post = true.
Proof.
  assert (Hdev : chosen_device argv = Some dev).
  { destruct Hargs as [[Hlen ->] | (prog & -> & H1 & H2)].
    - apply chosen_device_default; exact Hlen.
    - apply chosen_device_named; assumption. }
  destruct (after_init_opens_once w dev) as (tail & Htail & Hnone).
  pose proof (main_path_total w argv) as P.
  destruct P as [r Hdev' Hv Hf Ht | dev' Hdev' Hneg | dev' Hdev' Hpos Hval
                | dev' Hdev' Hpos Hval Hc | dev' Hdev' Hpos Hval Hc Hst
                | dev' Hdev' Hpos Hval Hc Hst];
    rewrite Hdev in Hdev'; try discriminate Hdev';
    injection Hdev' as <-; rewrite trace_mk.
  - exists [ev_print stderr "Error: Cannot open PCM device %s: %s\n"
                     [arg_s dev; arg_err (open_ret w dev)]].
    split; reflexivity.
  - exists (tail ++ release (open_handle w)).
    rewrite Htail. split; [reflexivity|].
    rewrite none_ev_app, Hnone. reflexivity.
  - exists (tail ++ alloc_failure ++ release (open_handle w) ++ goodbye).
    rewrite Htail. split; [reflexivity|].
    rewrite none_ev_app, Hnone. reflexivity.
  - exists (tail ++ loop_entry ++ trace (the_loop w dev)).
    rewrite Htail. split; [reflexivity|].
    rewrite none_ev_app, Hnone. no_events.
  - exists (tail ++ (loop_entry ++ trace (the_loop w dev) ++ loop_exit)
            ++ release (open_handle w) ++ goodbye).
    rewrite Htail. split; [reflexivity|].
    rewrite none_ev_app, Hnone. no_events.
Qed.

Lemma X5_device_opened_first_witness :
  let w := good_world [it_full; it_stop] in
  let argv := ["play_silence"; "plughw:1,0"] in
  (((List.length argv <= 1)%nat /\ "plughw:1,0" = "default") \/
   (exists prog, argv = [prog; "plughw:1,0"] /\
                 "plughw:1,0" <> "-h" /\ "plughw:1,0" <> "--help")) /\
  exists post,
    trace (main w argv initial_globals) =
      banner ++ trace (after_signals w)
      ++ ev_open "plughw:1,0" (open_ret w "plughw:1,0") :: post /\
    none_ev is_open post = true.
Proof.
  cbn zeta.
  assert (H : ((List.length ["play_silence"; "plughw:1,0"] <= 1)%nat /\
               "plughw:1,0" = "default") \/
              (exists prog, ["play_silence"; "plughw:1,0"] = [prog; "plughw:1,0"] /\
                            "plughw:1,0" <> "-h" /\ "plughw:1,0" <> "--help")).
  { right. exists "play_silence". repeat split; discriminate. }
  split; [exact H|].
  apply (X5_device_opened_first (good_world [it_full; it_stop])
           ["play_silence"; "plughw:1,0"] "plughw:1,0" H).
Defined.

Lemma some_failure (w : world) :
  ~ (forall c, 0 <= hw_ret w c) -> exists c, hw_ret w c < 0.
Proof.
  intros Hnot.
  destruct (first_failure w) as [c|] eqn:Hfirst.
  - exists c. unfold first_failure in Hfirst.
    apply find_some in Hfirst as [_ Hneg]. apply Z.ltb_lt. exact Hneg.
  - exfalso. apply Hnot. apply first_failure_none. exact Hfirst.
Qed.

Lemma after_init_failed (w : world) (dev : string) (c : hw_call) :
  hw_ret w c < 0 -> value (after_init w dev) = -1.
Proof.
  intros Hc. unfold after_init.
  pose proof (init_alsa_run w dev (final (after_signals w)))
    as (_ & _ & Hval & Hfail & Hok).
  destruct (Z.lt_ge_cases (open_ret w dev) 0) as [Hneg|Hpos].
  - rewrite (Hfail Hneg). reflexivity.
  - destruct Hval as [H0|H1]; [|exact H1].
    destruct (Hok Hpos) as [_ [Hall _]].
    specialize (Hall H0 c). lia.
Qed.

(** X6.  When the device opens but a configuration call fails, [main]
    drains and closes the handle and returns 1; the run allocates no
    buffer, never reads the flag and writes nothing to the device. *)
Theorem X6_configuration_failure_exits_1
    (w : world) (argv : list string) (dev : string) (c : hw_call)
    (Hdev : chosen_device argv = Some dev)
    (Hopen : 0 <= open_ret w dev)
    (Hfail : hw_ret w c < 0) :
  main w argv initial_globals =
    (Returned 1, closed (final (after_init w dev)),
     banner ++ trace (after_signals w) ++ trace (after_init w dev)
     ++ [ev_drain (open_handle w); ev_close (open_handle w);
         ev_print stdout "ALSA resources cleaned up.\n" []]) /\
  none_ev is_calloc (trace (main w argv initial_globals)) = true /\
  none_ev is_load (trace (main w argv initial_globals)) = true /\
  none_ev is_write (trace (main w argv initial_globals)) = true.
Proof.
  pose proof (after_init_failed w dev c Hfail) as Hinit.
  assert (Hmain : main w argv initial_globals =
            (Returned 1, closed (final (after_init w dev)),
             banner ++ trace (after_signals w) ++ trace (after_init w dev)
             ++ release (open_handle w))).
  { pose proof (main_path_total w argv) as P.
    destruct P as [r Hdev' Hv Hf Ht | dev' Hdev' Hneg | dev' Hdev' Hpos Hval
                  | dev' Hdev' Hpos Hval Hc | dev' Hdev' Hpos Hval Hc Hst
                  | dev' Hdev' Hpos Hval Hc Hst];
      rewrite Hdev in Hdev'; try discriminate Hdev';
      injection Hdev' as <-; try lia.
    reflexivity. }
  split; [exact Hmain|].
  rewrite Hmain, trace_mk. repeat split; no_events.
Qed.

Lemma X6_configuration_failure_exits_1_witness :
  let w := no_format_world in
  let argv := ["play_silence"] in
  chosen_device argv = Some "default" /\
  0 <= open_ret w "default" /\
  hw_ret w hw_set_format < 0 /\
  main w argv initial_globals =
    (Returned 1, closed (final (after_init w "default")),
     banner ++ trace (after_signals w) ++ trace (after_init w "default")
     ++ [ev_drain (open_handle w); ev_close (open_handle w);
         ev_print stdout "ALSA resources cleaned up.\n" []]) /\
  none_ev is_calloc (trace (main w argv initial_globals)) = true /\
  none_ev is_load (trace (main w argv initial_globals)) = true /\
  none_ev is_write (trace (main w argv initial_globals)) = true.
Proof.
  cbn zeta. split; [reflexivity|]. split; [cbn; lia|]. split; [cbn; lia|].
  apply (X6_configuration_failure_exits_1 no_format_world ["play_silence"]
           "default" hw_set_format);
    [reflexivity | cbn; lia | cbn; lia].
Defined.

Lemma main_usage_code (w : world) (argv : list string) :
  chosen_device argv = None ->
  value (main w argv initial_globals) =
  Returned (if (2 <? List.length argv)%nat then 1 else 0).
Proof.
  unfold chosen_device, main. cbn zeta.
  destruct (Z.gtb_spec (Z.of_nat (List.length argv)) 2) as [Hgt|Hle].
  - intros _.
    replace (2 <? List.length argv)%nat with true
      by (symmetry; apply Nat.ltb_lt; lia).
    vm_compute. reflexivity.
  - destruct ((Z.of_nat (List.length argv) =? 2)
              && (strcmp_eq0 (nth 1 argv "") "-h" || strcmp_eq0 (nth 1 argv "") "--help")).
    + intros _.
      replace (2 <? List.length argv)%nat with false
        by (symmetry; apply Nat.ltb_ge; lia).
      vm_compute. reflexivity.
    + discriminate.
Qed.

(** X7.  Whenever [main] returns, its exit code is 0 or 1, and it is 1
    in exactly two situations: more than one argument was given, or a
    device was chosen and its open or one of its configuration calls
    failed.  Nothing that happens later (a failed allocation, an
    aborted loop) makes the code non-zero. *)
Theorem X7_exit_code
    (w : world) (argv : list string) (code : Z) (g : globals) (tr : list event)
    (Hmain : main w argv initial_globals = (Returned code, g, tr)) :
  (code = 0 \/ code = 1) /\
  (code = 1 <->
   (2 < List.length argv)%nat \/
   exists dev, chosen_device argv = Some dev /\
               (open_ret w dev < 0 \/ exists c, hw_ret w c < 0)).
Proof.
  assert (Hsome : forall dev,
            chosen_device argv = Some dev -> ~ (2 < List.length argv)%nat).
  { intros dev Hd. apply chosen_device_length in Hd. lia. }
  assert (Hall : forall dev, 0 <= open_ret w dev -> value (after_init w dev) = 0 ->
                             forall c, 0 <= hw_ret w c).
  { intros dev Hpos H0.
    pose proof (init_alsa_run w dev (final (after_signals w)))
      as (_ & _ & _ & _ & Hok).
    destruct (Hok Hpos) as [_ [Hgo _]]. apply Hgo. exact H0. }
  main_cases w argv Hmain.
  - pose proof (main_usage_code w argv Hdev) as Hc.
    rewrite Hmain, value_mk in Hc. injection Hc as ->.
    destruct (Nat.ltb_spec 2 (List.length argv)) as [Hlt|Hge].
    + split; [right; reflexivity|]. split; [intros _; left; exact Hlt | reflexivity].
    + split; [left; reflexivity|]. split; [discriminate|].
      intros [Hlt | (dev & Hd & _)]; [lia|].
      rewrite Hdev in Hd. discriminate Hd.
  - injection Hcode as <-. split; [right; reflexivity|].
    split; [|reflexivity]. intros _. right. exists dev. auto.
  - injection Hcode as <-. split; [right; reflexivity|].
    split; [|reflexivity]. intros _. right. exists dev. split; [exact Hdev|].
    right. apply some_failure. intros Hok.
    pose proof (after_init_ok w dev Hpos Hok) as H0. rewrite H0 in Hval.
    discriminate Hval.
  - injection Hcode as <-. split; [left; reflexivity|]. split; [discriminate|].
    intros [Hlt | (dev' & Hd & Hbad)]; [exact (False_ind _ (Hsome dev Hdev Hlt))|].
    rewrite Hdev in Hd. injection Hd as <-.
    destruct Hbad as [Hneg | (c & Hneg)]; [lia|].
    specialize (Hall dev Hpos Hval c). lia.
  - discriminate Hcode.
  - injection Hcode as <-. split; [left; reflexivity|]. split; [discriminate|].
    intros [Hlt | (dev' & Hd & Hbad)]; [exact (False_ind _ (Hsome dev Hdev Hlt))|].
    rewrite Hdev in Hd. injection Hd as <-.
    destruct Hbad as [Hneg | (c & Hneg)]; [lia|].
    specialize (Hall dev Hpos Hval c). lia.
Qed.

Lemma X7_exit_code_witness :
  let w := good_world [it_fail; it_fail; it_fail] in
  let r := main w ["play_silence"] initial_globals in
  main w ["play_silence"] initial_globals = (Returned 0, final r, trace r) /\
  (0 = 0 \/ 0 = 1) /\
  (0 = 1 <->
   (2 < List.length ["play_silence"])%nat \/
   exists dev, chosen_device ["play_silence"] = Some dev /\
               (open_ret w dev < 0 \/ exists c, hw_ret w c < 0)).
Proof.
  cbn zeta. split; [vm_compute; reflexivity|].
  apply (X7_exit_code (good_world [it_fail; it_fail; it_fail]) ["play_silence"] 0
           (final (main (good_world [it_fail; it_fail; it_fail])
                        ["play_silence"] initial_globals))
           (trace (main (good_world [it_fail; it_fail; it_fail])
                        ["play_silence"] initial_globals))).
  vm_compute; reflexivity.
Defined.

(** ** Faults and the end of the loop *)

Lemma not_faulty (it : iteration) :
  faulty it = false ->
  0 <= writei_ret it \/ (writei_ret it = - EPIPE /\ 0 <= prepare_ret it).
Proof.
  unfold faulty. intros H.
  destruct (Z.ltb_spec (writei_ret it) 0) as [Hneg|Hpos]; [|left; exact Hpos].
  destruct (Z.eqb_spec (writei_ret it) (- EPIPE)) as [He|Hne]; [|discriminate H].
  destruct (Z.ltb_spec (prepare_ret it) 0) as [Hp|Hp]; [discriminate H|].
  right. split; assumption.
Qed.

Lemma quiet_signals (it : iteration) :
  quiet it = true -> sig_before it = [] /\ sig_during it = [].
Proof.
  unfold quiet. destruct (sig_before it), (sig_during it);
    solve [discriminate | split; reflexivity].
Qed.

(** A pass through the body without fault goes back to the loop
    condition, with the counter as it was or reset. *)
Lemma loop_body_no_fault (it : iteration) (buf : list Z) (ra : Z) (g : globals) :
  faulty it = false ->
  fst (value (loop_body it buf ra g)) = ctl_next /\
  (snd (value (loop_body it buf ra g)) = ra \/
   snd (value (loop_body it buf ra g)) = 0).
Proof.
  intros H. apply not_faulty in H. unfold EPIPE in H.
  open_body it g. split_tests; solve [auto | lia].
Qed.

(** Each pass through the body makes one write. *)
Lemma loop_body_writes_once (it : iteration) (buf : list Z) (ra : Z) (g : globals) :
  count_ev is_write (trace (loop_body it buf ra g)) = 1%nat.
Proof.
  pose proof (deliver_none is_write (sig_during it) g ltac:(handler_kind)) as Hd.
  apply none_ev_count in Hd.
  open_body it g. cbn in Hd.
  split_tests; unfold count_ev in *; rewrite filter_app, length_app, Hd; reflexivity.
Qed.

(** The flag is not read inside the body. *)
Lemma loop_body_no_load (it : iteration) (buf : list Z) (ra : Z) (g : globals) :
  none_ev is_load (trace (loop_body it buf ra g)) = true.
Proof.
  pose proof (deliver_none is_load (sig_during it) g ltac:(handler_kind)) as Hd.
  open_body it g. cbn in Hd.
  split_tests; unfold none_ev in *; rewrite forallb_app, Hd; reflexivity.
Qed.

(** X8.  The loop aborts only on a fault: if no iteration has a write
    error other than an underrun, and none has an underrun whose
    re-prime fails, then the loop does not end aborted, whatever
    signals arrive and however many underruns are recovered. *)
Theorem X8_no_abort_without_fault
    (its : list iteration) (buf : list Z) (ra : Z) (g : globals)
    (Hok : forallb (fun it => negb (faulty it)) its = true) :
  fst (value (while_running its buf ra g)) <> Aborted.
Proof.
  revert ra g. induction its as [|it rest IH]; intros ra g.
  - cbn. discriminate.
  - cbn in Hok. apply andb_true_iff in Hok as [Hit Hrest].
    apply negb_true_iff in Hit.
    pose proof (loop_body_no_fault it buf ra
                  (final (deliver (sig_before it) g)) Hit) as [Hnext _].
    open_loop it rest buf ra g.
    + cbn. discriminate.
    + apply IH. exact Hrest.
    + discriminate Hnext.
Qed.

Lemma X8_no_abort_without_fault_witness :
  forallb (fun it => negb (faulty it)) [it_recover; it_partial; it_recover; it_stop]
    = true /\
  fst (value (while_running [it_recover; it_partial; it_recover; it_stop]
                zero_buffer 2 an_open_handle)) <> Aborted.
Proof.
  split; [reflexivity|].
  apply (X8_no_abort_without_fault [it_recover; it_partial; it_recover; it_stop]
           zero_buffer 2 an_open_handle).
  reflexivity.
Defined.

(** X9.  The loop does not end by itself: with the flag set, no signal
    and no fault, it is still running after any number of iterations,
    has read the flag and written to the device once in each, and has
    left the globals as they were. *)
Theorem X9_runs_until_signal_or_fault
    (its : list iteration) (buf : list Z) (ra : Z) (g : globals)
    (Hquiet : forallb quiet its = true)
    (Hok : forallb (fun it => negb (faulty it)) its = true)
    (Hrun : running g <> 0) :
  let r := while_running its buf ra g in
  fst (value r) = Running /\
  final r = g /\
  count_ev is_write (trace r) = List.length its /\
  count_ev is_load (trace r) = List.length its.
Proof.
  cbn zeta. revert ra g Hrun. induction its as [|it rest IH]; intros ra g Hrun.
  - repeat split.
  - cbn in Hquiet, Hok.
    apply andb_true_iff in Hquiet as [Hq Hquiet].
    apply andb_true_iff in Hok as [Hit Hok].
    apply negb_true_iff in Hit.
    destruct (quiet_signals it Hq) as [Hsb Hsd].
    assert (Hd : deliver (sig_before it) g = (tt, g, [])) by (rewrite Hsb; reflexivity).
    pose proof (loop_body_no_fault it buf ra g Hit) as [Hnext _].
    assert (Hfin : final (loop_body it buf ra g) = g).
    { rewrite loop_body_final, Hsd. reflexivity. }
    pose proof (loop_body_writes_once it buf ra g) as Hw.
    pose proof (none_ev_count _ _ (loop_body_no_load it buf ra g)) as Hl.
    pose proof (while_running_cons it rest buf ra g) as Hcons. cbn zeta in Hcons.
    rewrite Hd in Hcons. rewrite ?value_mk, ?final_mk, ?trace_mk in Hcons.
    destruct (Z.eqb_spec (running g) 0) as [H0|_]; [contradiction|].
    rewrite Hnext, Hfin in Hcons. rewrite Hcons.
    rewrite ?value_mk, ?final_mk, ?trace_mk.
    specialize (IH Hquiet Hok (snd (value (loop_body it buf ra g))) g Hrun).
    destruct IH as (Hst & Hg & Hcw & Hcl).
    split; [exact Hst|]. split; [exact Hg|].
    cbn [app].
    change (count_ev is_write (ev_load_running (running g) :: ?t))
      with (count_ev is_write t).
    split.
    + rewrite count_ev_app, Hw, Hcw. reflexivity.
    + change (count_ev is_load (ev_load_running (running g)
                :: trace (loop_body it buf ra g)
                ++ trace (while_running rest buf
                            (snd (value (loop_body it buf ra g))) g)))
        with (S (count_ev is_load (trace (loop_body it buf ra g)
                ++ trace (while_running rest buf
                            (snd (value (loop_body it buf ra g))) g)))).
      rewrite count_ev_app, Hl, Hcl. reflexivity.
Qed.

Lemma X9_runs_until_signal_or_fault_witness :
  let its := [it_full; it_recover; it_partial; it_full] in
  let r := while_running its zero_buffer 0 an_open_handle in
  forallb quiet its = true /\
  forallb (fun it => negb (faulty it)) its = true /\
  running an_open_handle <> 0 /\
  fst (value r) = Running /\
  final r = an_open_handle /\
  count_ev is_write (trace r) = List.length its /\
  count_ev is_load (trace r) = List.length its.
Proof.
  cbn zeta. split; [reflexivity|]. split; [reflexivity|]. split; [discriminate|].
  apply (X9_runs_until_signal_or_fault [it_full; it_recover; it_partial; it_full]
           zero_buffer 0 an_open_handle);
    [reflexivity | reflexivity | discriminate].
Defined.

(** X10.  A write error that is not an underrun ends the loop at once:
    the body prints the error with its code and breaks, without trying
    to re-prime the stream and without pausing; the loop is aborted with
    the Recovery Counter as it was, and the iterations that remain are
    not run. *)
Theorem X10_fatal_write_aborts_at_once
    (it : iteration) (rest : list iteration) (buf : list Z) (ra : Z)
    (g : globals)
    (Hrun : running (final (deliver (sig_before it) g)) <> 0)
    (Herr : writei_ret it < 0)
    (Hother : writei_ret it <> - EPIPE) :
  let g' := final (deliver (sig_before it) g) in
  value (while_running (it :: rest) buf ra g) = (Aborted, ra) /\
  trace (while_running (it :: rest) buf ra g) =
    trace (deliver (sig_before it) g)
    ++ ev_load_running (running g')
    :: trace (deliver (sig_during it) g')
    ++ [ev_writei (pcm_handle g) buf buffer_frames (writei_ret it);
        ev_print stderr "Error: PCM write failed: %s\n"
                 [arg_err (writei_ret it)]].
Proof.
  cbn zeta.
  assert (Hbody : forall g0,
    value (loop_body it buf ra g0) = (ctl_break, ra) /\
    trace (loop_body it buf ra g0) =
      trace (deliver (sig_during it) g0)
      ++ [ev_writei (pcm_handle g0) buf buffer_frames (writei_ret it);
          ev_print stderr "Error: PCM write failed: %s\n"
                   [arg_err (writei_ret it)]]).
  { intros g0. pose proof (deliver_handle (sig_during it) g0) as Hh.
    unfold EPIPE in Hother.
    open_body it g0. cbn in Hh. rewrite Hh.
    split_tests; try lia; split; reflexivity. }
  destruct (Hbody (final (deliver (sig_before it) g))) as [Hv Ht].
  rewrite deliver_handle in Ht.
  open_loop it rest buf ra g.
  - contradiction.
  - rewrite Hv in Hctl. discriminate Hctl.
  - rewrite Hv, Ht. split; reflexivity.
Qed.

Lemma X10_fatal_write_aborts_at_once_witness :
  let g' := final (deliver (sig_before it_fatal) an_open_handle) in
  running g' <> 0 /\
  writei_ret it_fatal < 0 /\
  writei_ret it_fatal <> - EPIPE /\
  value (while_running (it_fatal :: [it_full; it_stop]) zero_buffer 1 an_open_handle)
    = (Aborted, 1) /\
  trace (while_running (it_fatal :: [it_full; it_stop]) zero_buffer 1 an_open_handle) =
    trace (deliver (sig_before it_fatal) an_open_handle)
    ++ ev_load_running (running g')
    :: trace (deliver (sig_during it_fatal) g')
    ++ [ev_writei (pcm_handle an_open_handle) zero_buffer buffer_frames
                  (writei_ret it_fatal);
        ev_print stderr "Error: PCM write failed: %s\n"
                 [arg_err (writei_ret it_fatal)]].
Proof.
  cbn zeta. split; [cbn; discriminate|]. split; [cbn; lia|].
  split; [cbn; discriminate|].
  apply (X10_fatal_write_aborts_at_once it_fatal [it_full; it_stop] zero_buffer 1
           an_open_handle);
    [cbn; discriminate | cbn; lia | cbn; discriminate].
Defined.

(** Quiet iterations whose writes return no error leave the loop where
    it was: same globals, same counter. *)
Lemma skip_quiet_writes (oks rest : list iteration) (buf : list Z) (ra : Z)
    (g : globals) :
  forallb quiet_write oks = true ->
  running g <> 0 ->
  value (while_running (oks ++ rest) buf ra g) =
  value (while_running rest buf ra g).
Proof.
  intros Hoks Hrun. induction oks as [|it oks IH]; [reflexivity|].
  cbn in Hoks. apply andb_true_iff in Hoks as [Hit Hoks].
  unfold quiet_write in Hit. apply andb_true_iff in Hit as [Hq Hpos].
  apply Z.leb_le in Hpos.
  destruct (quiet_signals it Hq) as [Hsb Hsd].
  assert (Hd : deliver (sig_before it) g = (tt, g, [])) by (rewrite Hsb; reflexivity).
  assert (Hv : value (loop_body it buf ra g) = (ctl_next, ra)).
  { open_body it g. split_tests; solve [reflexivity | lia]. }
  assert (Hfin : final (loop_body it buf ra g) = g).
  { rewrite loop_body_final, Hsd. reflexivity. }
  change ((it :: oks) ++ rest) with (it :: (oks ++ rest)).
  pose proof (while_running_cons it (oks ++ rest) buf ra g) as Hcons.
  cbn zeta in Hcons. rewrite Hd in Hcons.
  rewrite ?value_mk, ?final_mk, ?trace_mk in Hcons.
  destruct (Z.eqb_spec (running g) 0) as [H0|_]; [contradiction|].
  rewrite Hv, Hfin in Hcons. cbn [fst snd] in Hcons.
  rewrite Hcons, value_mk. apply IH. exact Hoks.
Qed.

(** A quiet underrun whose re-prime fails adds one to the counter, and
    ends the loop when that reaches the ceiling. *)
Lemma one_quiet_failure (it : iteration) (rest : list iteration) (buf : list Z)
    (ra : Z) (g : globals) :
  quiet_failure it = true ->
  running g <> 0 ->
  value (while_running (it :: rest) buf ra g) =
  if ra + 1 >=? max_recovery_attempts then (Aborted, ra + 1)
  else value (while_running rest buf (ra + 1) g).
Proof.
  intros Hit Hrun. unfold quiet_failure in Hit.
  apply andb_true_iff in Hit as [Hit Hp]. apply andb_true_iff in Hit as [Hq He].
  apply Z.ltb_lt in Hp. apply Z.eqb_eq in He. unfold EPIPE in He.
  destruct (quiet_signals it Hq) as [Hsb Hsd].
  assert (Hd : deliver (sig_before it) g = (tt, g, [])) by (rewrite Hsb; reflexivity).
  assert (Hv : value (loop_body it buf ra g) =
               (if ra + 1 >=? max_recovery_attempts then ctl_break else ctl_next,
                ra + 1)).
  { open_body it g. split_tests; solve [reflexivity | lia]. }
  assert (Hfin : final (loop_body it buf ra g) = g).
  { rewrite loop_body_final, Hsd. reflexivity. }
  pose proof (while_running_cons it rest buf ra g) as Hcons.
  cbn zeta in Hcons. rewrite Hd in Hcons.
  rewrite ?value_mk, ?final_mk, ?trace_mk in Hcons.
  destruct (Z.eqb_spec (running g) 0) as [H0|_]; [contradiction|].
  rewrite Hv, Hfin in Hcons. cbn [fst snd] in Hcons.
  rewrite Hcons. destruct (ra + 1 >=? max_recovery_attempts); reflexivity.
Qed.

(** X11.  The failed re-primes that bring the loop down need not come
    one after the other: writes that succeed (in full or in part) in
    between do not reset the Recovery Counter, so the third failed
    re-prime aborts the loop with the counter at 3 however many good
    writes separate it from the first two. *)
Theorem X11_failures_accumulate_across_good_writes
    (ok1 ok2 ok3 rest : list iteration) (f1 f2 f3 : iteration) (buf : list Z)
    (g : globals)
    (Hok1 : forallb quiet_write ok1 = true)
    (Hok2 : forallb quiet_write ok2 = true)
    (Hok3 : forallb quiet_write ok3 = true)
    (Hf1 : quiet_failure f1 = true)
    (Hf2 : quiet_failure f2 = true)
    (Hf3 : quiet_failure f3 = true)
    (Hrun : running g <> 0) :
  value (while_running (ok1 ++ f1 :: ok2 ++ f2 :: ok3 ++ f3 :: rest) buf 0 g) =
  (Aborted, max_recovery_attempts).
Proof.
  rewrite (skip_quiet_writes ok1 _ buf 0 g Hok1 Hrun).
  rewrite (one_quiet_failure f1 _ buf 0 g Hf1 Hrun).
  change (0 + 1 >=? max_recovery_attempts) with false. cbv iota.
  rewrite (skip_quiet_writes ok2 _ buf (0 + 1) g Hok2 Hrun).
  rewrite (one_quiet_failure f2 _ buf (0 + 1) g Hf2 Hrun).
  change (0 + 1 + 1 >=? max_recovery_attempts) with false. cbv iota.
  rewrite (skip_quiet_writes ok3 _ buf (0 + 1 + 1) g Hok3 Hrun).
  rewrite (one_quiet_failure f3 _ buf (0 + 1 + 1) g Hf3 Hrun).
  reflexivity.
Qed.

Lemma X11_failures_accumulate_across_good_writes_witness :
  forallb quiet_write [it_full; it_full] = true /\
  forallb quiet_write [it_partial] = true /\
  forallb quiet_write [it_full; it_partial; it_full] = true /\
  quiet_failure it_fail = true /\
  running an_open_handle <> 0 /\
  value (while_running ([it_full; it_full] ++ it_fail :: [it_partial] ++ it_fail
                        :: [it_full; it_partial; it_full] ++ it_fail :: [it_full])
           zero_buffer 0 an_open_handle) =
  (Aborted, max_recovery_attempts).
Proof.
  split; [reflexivity|]. split; [reflexivity|]. split; [reflexivity|].
  split; [reflexivity|]. split; [discriminate|].
  apply (X11_failures_accumulate_across_good_writes
           [it_full; it_full] [it_partial] [it_full; it_partial; it_full] [it_full]
           it_fail it_fail it_fail zero_buffer an_open_handle);
    solve [reflexivity | discriminate].
Defined.

(** ** Signals *)

Lemma deliver_running_clear (sigs : list signal) (g : globals) :
  running g = 0 -> running (final (deliver sigs g)) = 0.
Proof. intros H. rewrite deliver_running. destruct sigs; auto. Qed.

(** With the flag clear the loop stops at its first test. *)
Lemma while_running_stops (it : iteration) (rest : list iteration)
    (buf : list Z) (ra : Z) (g : globals) :
  running g = 0 ->
  while_running (it :: rest) buf ra g =
  ((Stopped, ra), final (deliver (sig_before it) g),
   trace (deliver (sig_before it) g) ++ [ev_load_running 0]).
Proof.
  intros H0.
  assert (Hclear : running (final (deliver (sig_before it) g)) = 0).
  { rewrite deliver_running. destruct (sig_before it); [exact H0|reflexivity]. }
  open_loop it rest buf ra g; [|contradiction..].
  rewrite Hclear. reflexivity.
Qed.

(** X12.  A termination signal that arrives while the program starts
    up, before the device is opened, is not lost and does not cut the
    start-up short.  The run is exactly: the banner and the
    installation of the handlers; the handling of the signal; the open
    and the six configuration calls with the report of the granted
    rate; the allocation of the buffer and the announcement; then the
    loop, which stops at its first test without writing anything; then
    the [free], the drain and the close of the device, and [main]
    returns 0. *)
Theorem X12_signal_during_startup
    (w : world) (argv : list string) (dev : string)
    (it : iteration) (rest : list iteration)
    (Hdev : chosen_device argv = Some dev)
    (Hopen : 0 <= open_ret w dev)
    (Hhw : forall c, 0 <= hw_ret w c)
    (Hbuf : calloc_ok w = true)
    (Hsig : sig_early w <> [])
    (Hits : iterations w = it :: rest) :
  let r := main w argv initial_globals in
  value r = Returned 0 /\
  running (final r) = 0 /\
  none_ev is_write (trace r) = true /\
  count_ev is_load (trace r) = 1%nat /\
  trace r =
    banner
    ++ trace (deliver (sig_early w) initial_globals)
    ++ (ev_open dev (open_ret w dev)
        :: hw_events w hw_stages ++ init_report dev (rate_near w))
    ++ [ev_calloc (buffer_frames * 2) sizeof_short true;
        ev_print stdout "Playing silence... Press Ctrl+C to stop.\n" []]
    ++ trace (deliver (sig_before it) (final (after_init w dev)))
    ++ [ev_load_running 0]
    ++ [ev_free; ev_print stdout "Silence playback stopped.\n" []]
    ++ [ev_drain (open_handle w); ev_close (open_handle w);
        ev_print stdout "ALSA resources cleaned up.\n" []]
    ++ [ev_print stdout "Program terminated successfully.\n" []].
Proof.
  cbn zeta.
  pose proof (after_init_ok w dev Hopen Hhw) as Hinit.
  assert (Hti : trace (after_init w dev) =
                ev_open dev (open_ret w dev)
                :: hw_events w hw_stages ++ init_report dev (rate_near w)).
  { unfold after_init. rewrite (init_alsa_exact w dev _ Hopen), trace_mk.
    apply first_failure_none in Hhw. rewrite Hhw. reflexivity. }
  assert (Hclear : running (final (after_init w dev)) = 0).
  { pose proof (init_alsa_run w dev (final (after_signals w))) as (Hrun & _).
    fold (after_init w dev) in Hrun. rewrite Hrun.
    unfold after_signals. rewrite deliver_running.
    destruct (sig_early w); [contradiction|reflexivity]. }
  assert (Hloop :
    the_loop w dev =
    ((Stopped, 0), final (deliver (sig_before it) (final (after_init w dev))),
     trace (deliver (sig_before it) (final (after_init w dev)))
     ++ [ev_load_running 0])).
  { unfold the_loop. rewrite Hits. apply while_running_stops. exact Hclear. }
  pose proof (main_path_total w argv) as P.
  destruct P as [r Hdev' Hv Hf Ht | dev' Hdev' Hneg | dev' Hdev' Hpos Hval
                | dev' Hdev' Hpos Hval Hc | dev' Hdev' Hpos Hval Hc Hst
                | dev' Hdev' Hpos Hval Hc Hst];
    rewrite Hdev in Hdev'; try discriminate Hdev';
    injection Hdev' as <-; try lia;
    try (rewrite Hbuf in Hc; discriminate Hc).
  - rewrite Hloop in Hst. discriminate Hst.
  - rewrite value_mk, final_mk, trace_mk.
    split; [reflexivity|].
    split.
    { rewrite Hloop, final_mk. cbn [closed running].
      apply deliver_running_clear. exact Hclear. }
    assert (Hd : none_ev is_write
                   (trace (deliver (sig_before it) (final (after_init w dev)))) = true)
      by (apply deliver_none; handler_kind).
    assert (Hl : none_ev is_load
                   (trace (deliver (sig_before it) (final (after_init w dev)))) = true)
      by (apply deliver_none; handler_kind).
    rewrite Hloop, trace_mk.
    split; [|split].
    + split_parts;
        first [ reflexivity | exact Hd
              | apply signals_none; handler_kind
              | apply init_none; init_kind ].
    + rewrite !count_ev_app.
      rewrite (none_ev_count is_load banner) by reflexivity.
      rewrite (none_ev_count is_load (trace (after_signals w)))
        by (apply signals_none; handler_kind).
      rewrite (none_ev_count is_load (trace (after_init w dev)))
        by (apply init_none; init_kind).
      rewrite (none_ev_count is_load _ Hl).
      reflexivity.
    + rewrite Hti. unfold after_signals.
      rewrite <- !app_assoc. reflexivity.
Qed.

Lemma X12_signal_during_startup_witness :
  let w := early_signal_world in
  let r := main w ["play_silence"] initial_globals in
  chosen_device ["play_silence"] = Some "default" /\
  0 <= open_ret w "default" /\
  (forall c, 0 <= hw_ret w c) /\
  calloc_ok w = true /\
  sig_early w <> [] /\
  iterations w = it_full :: [it_full] /\
  value r = Returned 0 /\
  running (final r) = 0 /\
  none_ev is_write (trace r) = true /\
  count_ev is_load (trace r) = 1%nat /\
  trace r =
    banner
    ++ trace (deliver (sig_early w) initial_globals)
    ++ (ev_open "default" (open_ret w "default")
        :: hw_events w hw_stages ++ init_report "default" (rate_near w))
    ++ [ev_calloc (buffer_frames * 2) sizeof_short true;
        ev_print stdout "Playing silence... Press Ctrl+C to stop.\n" []]
    ++ trace (deliver (sig_before it_full) (final (after_init w "default")))
    ++ [ev_load_running 0]
    ++ [ev_free; ev_print stdout "Silence playback stopped.\n" []]
    ++ [ev_drain (open_handle w); ev_close (open_handle w);
        ev_print stdout "ALSA resources cleaned up.\n" []]
    ++ [ev_print stdout "Program terminated successfully.\n" []].
Proof.
  cbn zeta. split; [reflexivity|]. split; [cbn; lia|].
  split; [intros c; cbn; lia|]. split; [reflexivity|].
  split; [discriminate|]. split; [reflexivity|].
  apply (X12_signal_during_startup early_signal_world ["play_silence"] "default"
           it_full [it_full]);
    [reflexivity | cbn; lia | intros c; cbn; lia | reflexivity
    | discriminate | reflexivity].
Defined.

(** In an accepted trace the flag ends clear if a store occurred and as
    it began otherwise. *)
Lemma flag_run_final_value (f f' : Z) (a a' : bool) (tr : list event) :
  flag_run (f, a) tr = Some (f', a') ->
  f' = if existsb is_store tr then 0 else f.
Proof.
  revert f a. induction tr as [|e tr IH]; intros f a H.
  - cbn in H. injection H as <- _. reflexivity.
  - cbn [flag_run flag_step] in H.
    destruct e; cbn [existsb is_store orb];
      try (exact (IH _ _ H)).
    + destruct (v =? f); [|discriminate H]. exact (IH _ _ H).
    + destruct (Z.eqb_spec v 0) as [->|]; [|discriminate H].
      specialize (IH _ _ H). destruct (existsb is_store tr); exact IH.
    + destruct a; [|discriminate H]. exact (IH _ _ H).
Qed.

(** The flag automaton ends a run of [main] in the value [running] has
    at the end. *)
Lemma main_flag_final (w : world) (argv : list string) :
  flag_run (running initial_globals, false)
           (trace (main w argv initial_globals)) =
  Some (running (final (main w argv initial_globals)), false).
Proof.
  destruct (main_path_total w argv)
    as [r Hdev Hv Hf Ht | dev Hdev Hneg | dev Hdev Hpos Hval
       | dev Hdev Hpos Hval Hc | dev Hdev Hpos Hval Hc Hst
       | dev Hdev Hpos Hval Hc Hst];
    rewrite ?trace_mk, ?final_mk.
  - rewrite Hf. apply flag_run_neutral.
    apply (forallb_weaken is_print); [init_kind | exact Ht].
  - rewrite flag_run_app. rewrite (flag_run_neutral _ banner) by reflexivity.
    rewrite flag_run_app, flag_run_signals.
    apply flag_run_neutral. reflexivity.
  - rewrite flag_run_app. rewrite (flag_run_neutral _ banner) by reflexivity.
    rewrite flag_run_app, flag_run_signals.
    rewrite flag_run_app, flag_run_init.
    apply (flag_run_neutral _ (release (open_handle w))). reflexivity.
  - rewrite flag_run_app. rewrite (flag_run_neutral _ banner) by reflexivity.
    rewrite flag_run_app, flag_run_signals.
    rewrite flag_run_app, flag_run_init.
    apply (flag_run_neutral _ (alloc_failure ++ release (open_handle w) ++ goodbye)).
    reflexivity.
  - rewrite flag_run_app. rewrite (flag_run_neutral _ banner) by reflexivity.
    rewrite flag_run_app, flag_run_signals.
    rewrite flag_run_app, flag_run_init.
    rewrite flag_run_app. rewrite (flag_run_neutral _ loop_entry) by reflexivity.
    apply flag_run_the_loop.
  - rewrite flag_run_app. rewrite (flag_run_neutral _ banner) by reflexivity.
    rewrite flag_run_app, flag_run_signals.
    rewrite flag_run_app, flag_run_init.
    rewrite flag_run_app, flag_run_app.
    rewrite (flag_run_neutral _ loop_entry) by reflexivity.
    rewrite flag_run_app, flag_run_the_loop.
    rewrite (flag_run_neutral _ loop_exit) by reflexivity.
    apply (flag_run_neutral _ (release (open_handle w) ++ goodbye)). reflexivity.
Qed.

(** X13.  The flag only ever goes from set to clear.  At the end of any
    run of [main] (whether it has returned or is still in its loop),
    [running] is 0 if a signal handler ran during the run and 1 if none
    did; nothing in the program sets the flag again. *)
Theorem X13_flag_never_set_again (w : world) (argv : list string) :
  let r := main w argv initial_globals in
  running (final r) = if existsb is_store (trace r) then 0 else 1.
Proof.
  cbn zeta.
  apply (flag_run_final_value (running initial_globals) _ false false).
  apply main_flag_final.
Qed.

(** ** The device handle *)

Lemma handle_run_app (h : snd_pcm_t) (s : handle_state) (t1 t2 : list event) :
  handle_run h s (t1 ++ t2) =
  match handle_run h s t1 with
  | Some s' => handle_run h s' t2
  | None => None
  end.
Proof.
  revert s; induction t1 as [|e t1 IH]; intros s; [reflexivity|].
  cbn. destruct (handle_step h s e); [apply IH | reflexivity].
Qed.

Lemma handle_run_neutral (h : snd_pcm_t) (s : handle_state) (tr : list event) :
  forallb handle_neutral tr = true -> handle_run h s tr = Some s.
Proof.
  revert s; induction tr as [|e tr IH]; intros s H; [reflexivity|].
  cbn in H. apply andb_true_iff in H as [He Htr].
  cbn. destruct e; try discriminate He; cbn; apply IH; exact Htr.
Qed.

Lemma handle_run_signals (w : world) (s : handle_state) :
  handle_run (open_handle w) s (trace (after_signals w)) = Some s.
Proof.
  apply handle_run_neutral.
  apply (forallb_weaken is_handler_event); [handler_kind|].
  apply deliver_handler_events.
Qed.

Lemma handle_run_hw_events (w : world) (cs : list hw_call) (tail : list event) :
  handle_run (open_handle w) Opened (hw_events w cs ++ tail) =
  handle_run (open_handle w) Opened tail.
Proof.
  induction cs as [|c cs IH]; [reflexivity|].
  cbn [hw_events map app handle_run handle_step].
  rewrite Pos.eqb_refl. exact IH.
Qed.

Lemma handle_run_init (w : world) (dev : string) :
  handle_run (open_handle w) NotOpened (trace (after_init w dev)) =
  Some (if 0 <=? open_ret w dev then Opened else Done).
Proof.
  unfold after_init.
  destruct (Z.leb_spec 0 (open_ret w dev)) as [Hpos|Hneg].
  - rewrite (init_alsa_exact w dev _ Hpos), trace_mk.
    cbn [handle_run handle_step].
    destruct (Z.leb_spec 0 (open_ret w dev)); [|lia].
    destruct (first_failure w); rewrite handle_run_hw_events; reflexivity.
  - pose proof (init_alsa_run w dev (final (after_signals w)))
      as (_ & _ & _ & Hfail & _).
    rewrite (Hfail Hneg), trace_mk. cbn [open_failure handle_run handle_step].
    destruct (Z.leb_spec 0 (open_ret w dev)); [lia|]. reflexivity.
Qed.

Lemma handle_run_loop_events (h : snd_pcm_t) (buf : list Z) (tr : list event) :
  Forall (loop_event (Some h) buf) tr -> handle_run h Opened tr = Some Opened.
Proof.
  induction 1 as [|e tr He Htr IH]; [reflexivity|].
  cbn [handle_run]. destruct e; cbn [loop_event] in He; try contradiction;
    cbn [handle_step]; try exact IH.
  - destruct He as (-> & _). rewrite Pos.eqb_refl. exact IH.
  - subst h0. rewrite Pos.eqb_refl. exact IH.
Qed.

Lemma handle_run_the_loop (w : world) (dev : string) :
  pcm_handle (final (after_init w dev)) = Some (open_handle w) ->
  handle_run (open_handle w) Opened (trace (the_loop w dev)) = Some Opened.
Proof.
  intros Hh. apply (handle_run_loop_events _ zero_buffer).
  rewrite <- Hh. apply while_running_events.
Qed.

Lemma handle_run_release (h : snd_pcm_t) (tail : list event) :
  forallb handle_neutral tail = true ->
  handle_run h Opened (release h ++ tail) = Some Done.
Proof.
  intros Ht. cbn [release app handle_run handle_step].
  rewrite Pos.eqb_refl. apply handle_run_neutral. exact Ht.
Qed.

Lemma after_init_handle (w : world) (dev : string) :
  0 <= open_ret w dev ->
  pcm_handle (final (after_init w dev)) = Some (open_handle w).
Proof.
  intros Hpos.
  pose proof (init_alsa_run w dev (final (after_signals w)))
    as (_ & _ & _ & _ & Hok).
  apply (Hok Hpos).
Qed.

(** X14.  Every run of [main] uses the device handle by the discipline
    of [handle_run]: nothing is called on the device before the open;
    the configuration calls, writes and re-primes all go to the handle
    the open returned, while it is open; the drain comes before the
    close; and no call is made after the close or after a failed open.
    When [main] returns, the handle is not left open: either no open
    was attempted or the device is done with. *)
Theorem X14_handle_discipline (w : world) (argv : list string) :
  let r := main w argv initial_globals in
  exists s,
    handle_run (open_handle w) NotOpened (trace r) = Some s /\
    (forall code, value r = Returned code -> s = NotOpened \/ s = Done).
Proof.
  cbn zeta.
  destruct (main_path_total w argv)
    as [r Hdev Hv Hf Ht | dev Hdev Hneg | dev Hdev Hpos Hval
       | dev Hdev Hpos Hval Hc | dev Hdev Hpos Hval Hc Hst
       | dev Hdev Hpos Hval Hc Hst];
    rewrite ?trace_mk, ?value_mk.
  - exists NotOpened. split; [|auto].
    apply handle_run_neutral.
    apply (forallb_weaken is_print); [init_kind | exact Ht].
  - exists Done. split; [|auto].
    rewrite handle_run_app. rewrite (handle_run_neutral _ _ banner) by reflexivity.
    rewrite handle_run_app, handle_run_signals.
    cbn [open_failure handle_run handle_step].
    destruct (Z.leb_spec 0 (open_ret w dev)); [lia|reflexivity].
  - exists Done. split; [|auto].
    rewrite handle_run_app. rewrite (handle_run_neutral _ _ banner) by reflexivity.
    rewrite handle_run_app, handle_run_signals.
    rewrite handle_run_app, handle_run_init.
    destruct (Z.leb_spec 0 (open_ret w dev)); [|lia].
    rewrite <- (app_nil_r (release (open_handle w))).
    apply handle_run_release. reflexivity.
  - exists Done. split; [|auto].
    rewrite handle_run_app. rewrite (handle_run_neutral _ _ banner) by reflexivity.
    rewrite handle_run_app, handle_run_signals.
    rewrite handle_run_app, handle_run_init.
    destruct (Z.leb_spec 0 (open_ret w dev)); [|lia].
    rewrite handle_run_app.
    rewrite (handle_run_neutral _ _ alloc_failure) by reflexivity.
    apply handle_run_release. reflexivity.
  - exists Opened. split; [|intros code H; discriminate H].
    rewrite handle_run_app. rewrite (handle_run_neutral _ _ banner) by reflexivity.
    rewrite handle_run_app, handle_run_signals.
    rewrite handle_run_app, handle_run_init.
    destruct (Z.leb_spec 0 (open_ret w dev)); [|lia].
    rewrite handle_run_app.
    rewrite (handle_run_neutral _ _ loop_entry) by reflexivity.
    apply handle_run_the_loop. apply after_init_handle. exact Hpos.
  - exists Done. split; [|auto].
    rewrite handle_run_app. rewrite (handle_run_neutral _ _ banner) by reflexivity.
    rewrite handle_run_app, handle_run_signals.
    rewrite handle_run_app, handle_run_init.
    destruct (Z.leb_spec 0 (open_ret w dev)); [|lia].
    rewrite handle_run_app, handle_run_app.
    rewrite (handle_run_neutral _ _ loop_entry) by reflexivity.
    rewrite handle_run_app.
    rewrite (handle_run_the_loop w dev (after_init_handle w dev Hpos)).
    rewrite (handle_run_neutral _ _ loop_exit) by reflexivity.
    apply handle_run_release. reflexivity.
Qed.

(** ** The buffer, and the pauses *)

(** Once the buffer is gone nothing more happens to it. *)
Lemma buffer_run_gone (s : buffer_state) (tr : list event) :
  buffer_run Gone tr = Some s ->
  none_ev is_write tr = true /\ none_ev is_free tr = true /\
  none_ev is_calloc tr = true.
Proof.
  induction tr as [|e tr IH]; cbn; intros H; [auto|].
  destruct e; cbn in H |- *; solve [apply IH; exact H | discriminate H].
Qed.

Lemma nothing_after_free (s0 s : buffer_state) (pre post : list event) :
  buffer_run s0 (pre ++ ev_free :: post) = Some s ->
  none_ev is_write post = true /\ none_ev is_free post = true /\
  none_ev is_calloc post = true.
Proof.
  rewrite buffer_run_app. destruct (buffer_run s0 pre) as [s1|]; [|discriminate].
  cbn [buffer_run buffer_step]. destruct s1; try discriminate.
  apply buffer_run_gone.
Qed.

(** Counts the events of a kind in a run assembled from its parts. *)
Ltac count_parts :=
  rewrite ?count_ev_app;
  repeat match goal with
         | |- context [count_ev ?p (trace (after_signals ?w))] =>
             rewrite (none_ev_count p (trace (after_signals w)))
               by (apply signals_none; handler_kind)
         | |- context [count_ev ?p (trace (after_init ?w ?dev))] =>
             rewrite (none_ev_count p (trace (after_init w dev)))
               by (apply init_none; init_kind)
         | |- context [count_ev ?p (trace (the_loop ?w ?dev))] =>
             rewrite (none_ev_count p (trace (the_loop w dev)))
               by (apply loop_none; loop_kind)
         end.

(** X15.  Whenever [main] returns, the buffer has been freed exactly as
    often as it was allocated, which is at most once; and in every
    accepted run nothing is written to the device, freed or allocated
    after the [free]. *)
Theorem X15_buffer_freed_once
    (w : world) (argv : list string) (code : Z) (g : globals) (tr : list event)
    (Hmain : main w argv initial_globals = (Returned code, g, tr)) :
  count_ev is_free tr = count_ev is_calloc_ok tr /\
  (count_ev is_free tr <= 1)%nat /\
  (forall pre post,
     tr = pre ++ ev_free :: post ->
     none_ev is_write post = true /\ none_ev is_free post = true /\
     none_ev is_calloc post = true).
Proof.
  assert (Hcount : (count_ev is_free tr = 0%nat /\ count_ev is_calloc_ok tr = 0%nat)
                   \/ (count_ev is_free tr = 1%nat /\ count_ev is_calloc_ok tr = 1%nat)).
  { main_cases w argv Hmain; try discriminate Hcode; try subst g tr.
    - rewrite trace_mk in Ht. left. split; apply none_ev_count;
        (apply (forallb_none is_print); [init_kind | exact Ht]).
    - left. split; count_parts; reflexivity.
    - left. split; count_parts; reflexivity.
    - left. split; count_parts; reflexivity.
    - right. split; count_parts; reflexivity. }
  split; [destruct Hcount as [[-> ->]|[-> ->]]; reflexivity|].
  split; [destruct Hcount as [[-> _]|[-> _]]; lia|].
  intros pre post Htr.
  destruct (main_buffer_run w argv) as [s Hs].
  rewrite Hmain, trace_mk, Htr in Hs.
  apply (nothing_after_free _ _ _ _ Hs).
Qed.

Lemma X15_buffer_freed_once_witness :
  let w := good_world [it_fail; it_fail; it_fail] in
  let r := main w ["play_silence"] initial_globals in
  main w ["play_silence"] initial_globals = (Returned 0, final r, trace r) /\
  count_ev is_free (trace r) = count_ev is_calloc_ok (trace r) /\
  (count_ev is_free (trace r) <= 1)%nat /\
  (forall pre post,
     trace r = pre ++ ev_free :: post ->
     none_ev is_write post = true /\ none_ev is_free post = true /\
     none_ev is_calloc post = true).
Proof.
  cbn zeta. split; [vm_compute; reflexivity|].
  apply (X15_buffer_freed_once (good_world [it_fail; it_fail; it_fail])
           ["play_silence"] 0
           (final (main (good_world [it_fail; it_fail; it_fail])
                        ["play_silence"] initial_globals))
           (trace (main (good_world [it_fail; it_fail; it_fail])
                        ["play_silence"] initial_globals))).
  vm_compute; reflexivity.
Defined.

(** A pass through the body pauses once when it goes back to the loop
    condition and not at all when it breaks. *)
Lemma loop_body_pauses (it : iteration) (buf : list Z) (ra : Z) (g : globals) :
  count_ev is_usleep (trace (loop_body it buf ra g)) =
  match fst (value (loop_body it buf ra g)) with
  | ctl_next => 1%nat
  | ctl_break => 0%nat
  end.
Proof.
  pose proof (deliver_none is_usleep (sig_during it) g ltac:(handler_kind)) as Hd.
  apply none_ev_count in Hd.
  open_body it g. cbn in Hd.
  split_tests; unfold count_ev in *; rewrite filter_app, length_app, Hd; reflexivity.
Qed.

(** X16.  The loop pauses after every write except the one that makes
    it abort: in any run of the loop the number of writes is the number
    of pauses, plus one if the loop ended aborted. *)
Theorem X16_pause_after_every_write
    (its : list iteration) (buf : list Z) (ra : Z) (g : globals) :
  let r := while_running its buf ra g in
  count_ev is_write (trace r) =
  (count_ev is_usleep (trace r)
   + match fst (value r) with Aborted => 1 | _ => 0 end)%nat.
Proof.
  cbn zeta. revert ra g. induction its as [|it rest IH]; intros ra g; [reflexivity|].
  pose proof (none_ev_count _ _
                (deliver_none is_write (sig_before it) g ltac:(handler_kind))) as Hdw.
  pose proof (none_ev_count _ _
                (deliver_none is_usleep (sig_before it) g ltac:(handler_kind))) as Hdu.
  pose proof (loop_body_writes_once it buf ra (final (deliver (sig_before it) g)))
    as Hbw.
  pose proof (loop_body_pauses it buf ra (final (deliver (sig_before it) g)))
    as Hbu.
  open_loop it rest buf ra g.
  - rewrite !count_ev_app, Hdw, Hdu. reflexivity.
  - rewrite !count_ev_app, Hdw, Hdu.
    change (count_ev is_write (ev_load_running ?v :: ?t)) with (count_ev is_write t).
    change (count_ev is_usleep (ev_load_running ?v :: ?t)) with (count_ev is_usleep t).
    rewrite !count_ev_app, Hbw, Hbu, IH. lia.
  - rewrite !count_ev_app, Hdw, Hdu.
    change (count_ev is_write (ev_load_running ?v :: ?t)) with (count_ev is_write t).
    change (count_ev is_usleep (ev_load_running ?v :: ?t)) with (count_ev is_usleep t).
    rewrite Hbw, Hbu. reflexivity.
Qed.

(** ** Recovered underruns, and runs that have ended *)

(** X17.  An underrun whose re-prime succeeds costs one call of
    [snd_pcm_prepare] on the same handle and the usual pause of 1000
    microseconds: the body prints the underrun warning and nothing on
    standard error, makes no second write, and goes back to the loop
    condition with the Recovery Counter at 0; the loop then carries on
    with the remaining iterations. *)
Theorem X17_recovered_underrun
    (it : iteration) (rest : list iteration) (buf : list Z) (ra : Z)
    (g : globals)
    (Hunder : writei_ret it = - EPIPE)
    (Hprime : 0 <= prepare_ret it)
    (Hrun : running (final (deliver (sig_before it) g)) <> 0) :
  let r := loop_body it buf ra g in
  value r = (ctl_next, 0) /\
  trace r =
    trace (deliver (sig_during it) g) ++
    [ev_writei (pcm_handle g) buf buffer_frames (- EPIPE);
     ev_print stdout "Warning: PCM underrun occurred\n" [];
     ev_prepare (pcm_handle g) (prepare_ret it);
     ev_usleep 1000] /\
  let r' := loop_body it buf ra (final (deliver (sig_before it) g)) in
  value (while_running (it :: rest) buf ra g) =
  value (while_running rest buf 0 (final r')).
Proof.
  cbn zeta.
  assert (Hbody : forall g0, value (loop_body it buf ra g0) = (ctl_next, 0)).
  { intros g0. open_body it g0. rewrite Hunder. cbn.
    destruct (Z.ltb_spec (prepare_ret it) 0); [lia|reflexivity]. }
  split; [apply Hbody|]. split.
  - pose proof (deliver_handle (sig_during it) g) as Hh.
    open_body it g. cbn in Hh. rewrite Hunder. cbn.
    destruct (Z.ltb_spec (prepare_ret it) 0); [lia|].
    cbn. rewrite !Hh. reflexivity.
  - open_loop it rest buf ra g.
    + contradiction.
    + rewrite Hbody. reflexivity.
    + rewrite Hbody in Hctl. discriminate Hctl.
Qed.

Lemma X17_recovered_underrun_witness :
  writei_ret it_recover = - EPIPE /\
  0 <= prepare_ret it_recover /\
  running (final (deliver (sig_before it_recover) an_open_handle)) <> 0 /\
  value (loop_body it_recover zero_buffer 2 an_open_handle) = (ctl_next, 0) /\
  trace (loop_body it_recover zero_buffer 2 an_open_handle) =
    trace (deliver (sig_during it_recover) an_open_handle) ++
    [ev_writei (pcm_handle an_open_handle) zero_buffer buffer_frames (- EPIPE);
     ev_print stdout "Warning: PCM underrun occurred\n" [];
     ev_prepare (pcm_handle an_open_handle) (prepare_ret it_recover);
     ev_usleep 1000] /\
  value (while_running (it_recover :: [it_fail]) zero_buffer 2 an_open_handle) =
  value (while_running [it_fail] zero_buffer 0
           (final (loop_body it_recover zero_buffer 2
                     (final (deliver (sig_before it_recover) an_open_handle))))).
Proof.
  split; [reflexivity|]. split; [cbn; lia|]. split; [cbn; discriminate|].
  apply (X17_recovered_underrun it_recover [it_fail] zero_buffer 2 an_open_handle);
    [reflexivity | cbn; lia | cbn; discriminate].
Defined.

(** X18.  Once the loop has ended (stopped or aborted), what the world
    would have answered afterwards plays no part: a run on more
    iterations gives the same status, counter, globals and trace. *)
Theorem X18_ended_loop_ignores_the_rest
    (its more : list iteration) (buf : list Z) (ra : Z) (g : globals)
    (Hended : fst (value (while_running its buf ra g)) <> Running) :
  while_running (its ++ more) buf ra g = while_running its buf ra g.
Proof.
  revert ra g Hended. induction its as [|it rest IH]; intros ra g Hended.
  - cbn in Hended. contradiction Hended. reflexivity.
  - change ((it :: rest) ++ more) with (it :: (rest ++ more)).
    pose proof (while_running_cons it (rest ++ more) buf ra g) as Hlong.
    pose proof (while_running_cons it rest buf ra g) as Hshort.
    cbn zeta in Hlong, Hshort. rewrite Hshort in Hended. rewrite Hlong, Hshort.
    destruct (running (final (deliver (sig_before it) g)) =? 0); [reflexivity|].
    destruct (fst (value (loop_body it buf ra (final (deliver (sig_before it) g)))));
      [|reflexivity].
    rewrite value_mk in Hended. rewrite (IH _ _ Hended). reflexivity.
Qed.

Lemma X18_ended_loop_ignores_the_rest_witness :
  fst (value (while_running [it_full; it_stop] zero_buffer 0 an_open_handle))
    <> Running /\
  while_running ([it_full; it_stop] ++ [it_fail; it_fatal]) zero_buffer 0
                an_open_handle =
  while_running [it_full; it_stop] zero_buffer 0 an_open_handle.
Proof.
  split; [cbn; discriminate|].
  apply (X18_ended_loop_ignores_the_rest [it_full; it_stop] [it_fail; it_fatal]
           zero_buffer 0 an_open_handle).
  cbn; discriminate.
Defined.
